(** * The dispatch path of the WhatsApp sender (app_2.0.py)

    A shallow embedding of the send-button handler: parameter resolution,
    image priority, payload construction on a small object store, the
    outbound call and its classification, the merge of completed tasks
    back into row order, and the highlighted report. *)

From Stdlib Require Import ZArith DecimalString Ascii String.
From stdpp Require Import base tactics option list strings numbers gmap.

Open Scope string_scope.
Open Scope list_scope.
#[local] Set Warnings "-register-all".

(** ** Python text

    Text is a [string] that holds the UTF-8 encoding of a Python [str]:
    a character of the ASCII range is one byte, any other is a sequence
    of two to four bytes, none of which is in the ASCII range. *)

Definition byte (c : ascii) : nat := nat_of_ascii c.

(** The white space of [str.isspace] and [str.strip].  In the ASCII
    range: TAB, LF, VT, FF, CR, the separators FS..US and space. *)
Definition isspace (c : ascii) : bool :=
  ((9 <=? byte c)%nat && (byte c <=? 13)%nat)
  || ((28 <=? byte c)%nat && (byte c <=? 32)%nat).

(** In two bytes: U+0085 (C2 85) and U+00A0 (C2 A0). *)
Definition isspace2 (c1 c2 : ascii) : bool :=
  (byte c1 =? 194)%nat && ((byte c2 =? 133)%nat || (byte c2 =? 160)%nat).

(** In three bytes: U+1680 (E1 9A 80), U+2000..U+200A (E2 80 80..8A),
    U+2028 and U+2029 (E2 80 A8, A9), U+202F (E2 80 AF), U+205F
    (E2 81 9F) and U+3000 (E3 80 80). *)
Definition isspace3 (c1 c2 c3 : ascii) : bool :=
  ((byte c1 =? 225)%nat && (byte c2 =? 154)%nat && (byte c3 =? 128)%nat)
  || ((byte c1 =? 226)%nat && (byte c2 =? 128)%nat &&
      (((128 <=? byte c3)%nat && (byte c3 <=? 138)%nat)
       || (byte c3 =? 168)%nat || (byte c3 =? 169)%nat
       || (byte c3 =? 175)%nat))
  || ((byte c1 =? 226)%nat && (byte c2 =? 129)%nat && (byte c3 =? 159)%nat)
  || ((byte c1 =? 227)%nat && (byte c2 =? 128)%nat && (byte c3 =? 128)%nat).

(** [s.lstrip()] *)
Fixpoint lstrip (s : string) : string :=
  match s with
  | EmptyString => EmptyString
  | String c1 r1 =>
      if isspace c1 then lstrip r1
      else match r1 with
           | EmptyString => s
           | String c2 r2 =>
               if isspace2 c1 c2 then lstrip r2
               else match r2 with
                    | EmptyString => s
                    | String c3 r3 =>
                        if isspace3 c1 c2 c3 then lstrip r3 else s
                    end
           end
  end.

(** [s] is made of white space only. *)
Fixpoint all_space (s : string) : bool :=
  match s with
  | EmptyString => true
  | String c1 r1 =>
      if isspace c1 then all_space r1
      else match r1 with
           | EmptyString => false
           | String c2 r2 =>
               if isspace2 c1 c2 then all_space r2
               else match r2 with
                    | EmptyString => false
                    | String c3 r3 => isspace3 c1 c2 c3 && all_space r3
                    end
           end
  end.

(** [s.rstrip()]: the text up to the point from which only white space
    follows. *)
Fixpoint rstrip (s : string) : string :=
  match s with
  | EmptyString => EmptyString
  | String c r => if all_space s then EmptyString else String c (rstrip r)
  end.

(** [s.strip()] *)
Definition strip (s : string) : string := rstrip (lstrip s).

Definition lower_char (c : ascii) : ascii :=
  if (65 <=? byte c)%nat && (byte c <=? 90)%nat
  then ascii_of_nat (byte c + 32) else c.

(** [s.lower()] on the letters of the ASCII range; the bytes of the other
    characters are kept.  Python lowers those characters too, but to
    characters outside the ASCII range (the exceptions: the Kelvin sign
    gives [k], and the dotted capital I gives [i] followed by a combining
    dot), so the text obtained is one of the words [failed] and [error]
    exactly when Python's is. *)
Fixpoint lower (s : string) : string :=
  match s with
  | EmptyString => EmptyString
  | String c r => String (lower_char c) (lower r)
  end.

(** [s.startswith(p)] *)
Definition startswith (s p : string) : bool := String.prefix p s.

(** [str(n)] for an [int]. *)
Definition str_int (z : Z) : string := NilZero.string_of_int (Z.to_int z).

(** The double nearest to the integer [a], for [0 ≤ a] (ties go to the
    even mantissa): the pair [(m, k)] stands for [m * 2^k]. *)
Definition nearest_double (a : Z) : Z * Z :=
  if (a <? 2 ^ 53)%Z then (a, 0%Z)
  else
    let k := (Z.log2 a - 52)%Z in
    let q := (a / 2 ^ k)%Z in
    let r := (a mod 2 ^ k)%Z in
    let half := (2 ^ (k - 1))%Z in
    let q' := if (half <? r)%Z || ((r =? half)%Z && Z.odd q)
              then (q + 1)%Z else q in
    if (q' =? 2 ^ 53)%Z then (2 ^ 52, k + 1)%Z else (q', k).

(** The shortest decimal that reads back as the double [F], an integer
    with neighbours at distance [2 * mlo] below and [2 * mhi] above: the
    leading digits [hd] and the power of ten [e] they are to be
    multiplied with, found by trying one digit more at a time, from
    [10 ^ e] down.  The bounds belong to [F] when its mantissa is even. *)
Fixpoint shortest (fuel : nat) (F mlo mhi : Z) (even : bool) (e : Z)
  : Z * Z :=
  let scale := (10 ^ e)%Z in
  let hd := (F / scale)%Z in
  let b := (F mod scale)%Z in
  let low := (b ?= mlo)%Z in
  let high := if (scale - mhi <? 0)%Z then Gt else (b ?= scale - mhi)%Z in
  match high, even with
  | Eq, true => (if low is Gt then (hd + 1)%Z else hd, e)
  | _, _ =>
      if match low with Lt => true | Eq => even | Gt => false end
      then
        (if negb (b =? 0)%Z && (if high is Gt then true else false)
            && ((scale <? 2 * b)%Z || ((2 * b =? scale)%Z && Z.odd hd))
         then (hd + 1)%Z else hd, e)
      else if high is Gt then ((hd + 1)%Z, e)
      else match fuel with
           | O => (F, 0%Z)
           | S fuel' => shortest fuel' F mlo mhi even (e - 1)
           end
  end.

Fixpoint all_zeros (s : string) : bool :=
  match s with
  | EmptyString => true
  | String c r => bool_decide (c = "0"%char) && all_zeros r
  end.

(** The digits without the zeros at their end. *)
Fixpoint strip_zeros (s : string) : string :=
  match s with
  | EmptyString => EmptyString
  | String c r => if all_zeros s then EmptyString else String c (strip_zeros r)
  end.

(** [str(float(z))], the text of an integer taken as a float: the digits
    and [.0] below [1e16], the shortest digits and an exponent of at
    least two digits from there on. *)
Definition float_text (z : Z) : string :=
  let '(m, k) := nearest_double (Z.abs z) in
  let F := (m * 2 ^ k)%Z in
  let sign := if (z <? 0)%Z then "-" else "" in
  if (F <? 10 ^ 16)%Z then sign +:+ str_int F +:+ ".0"
  else
    let L := String.length (str_int F) in
    let mhi := (2 ^ (k - 1))%Z in
    let mlo := if (m =? 2 ^ 52)%Z then (2 ^ (k - 2))%Z else mhi in
    let '(hd, e) := shortest L F mlo mhi (Z.even m) (Z.of_nat L - 1) in
    let exponent := (Z.of_nat (String.length (str_int hd)) + e - 1)%Z in
    match strip_zeros (str_int hd) with
    | EmptyString => EmptyString
    | String d rest =>
        sign +:+ String d (if rest is EmptyString then "" else "." +:+ rest)
        +:+ "e+" +:+ (if (exponent <? 10)%Z then "0" else "")
        +:+ str_int exponent
    end.

(** Truth value of a string in a condition: empty is false. *)
Definition truthy (s : string) : bool := bool_decide (s ≠ "").

(** ** Python dictionaries with string keys

    Insertion ordered: assigning to a present key keeps its place, a new
    key goes to the end. *)

Abbreviation dict V := (list (string * V)) (only parsing).

Fixpoint dict_get {V} (k : string) (d : dict V) : option V :=
  match d with
  | [] => None
  | (k', v) :: r => if decide (k' = k) then Some v else dict_get k r
  end.

Fixpoint dict_set {V} (k : string) (v : V) (d : dict V) : dict V :=
  match d with
  | [] => [(k, v)]
  | (k', v') :: r =>
      if decide (k' = k) then (k, v) :: r else (k', v') :: dict_set k v r
  end.

(** [d.get(k, default)] *)
Definition get {V} (d : dict V) (k : string) (default : V) : V :=
  from_option id default (dict_get k d).

(** ** Table cells and rows *)

(** A value found in a table cell: text, an integer, a float, [None], or
    a scalar of another kind (a boolean, a timestamp).  A float and a
    scalar of another kind are carried with the text that [str] gives for
    them; the float NaN, which stands for an empty cell, has the text
    [nan]. *)
Inductive cell : Type :=
  | CellStr (s : string)
  | CellInt (z : Z)
  | CellFloat (text : string)
  | CellNone
  | CellOther (text : string).

(** [str(v)] *)
Definition str (c : cell) : string :=
  match c with
  | CellStr s => s
  | CellInt z => str_int z
  | CellFloat text => text
  | CellNone => "None"
  | CellOther text => text
  end.

(** One row of the table as handed out by [df.iterrows()] and by
    [df.iloc[0]]: column labels with their values ([pd.read_excel] makes
    the labels distinct). *)
Abbreviation Series := (dict cell) (only parsing).

(** ** Field mappings *)

(** The dictionary [{"type": ..., "value": ...}] returned by [map_column]. *)
Record mapinfo : Type := MapInfo { mtype : string; mvalue : string }.

(** Lines 231-234: the value of one mapped field for one row. *)
Definition resolve (row : Series) (m : mapinfo) : string :=
  if decide (mtype m = "column")
  then strip (str (get row (mvalue m) (CellStr "")))
  else mvalue m.

(** Lines 217-224: uploaded image > per-row image column > no image. *)
Definition final_img (image_url image_col_map : string) (row : Series) : string :=
  if truthy image_url then image_url
  else if truthy image_col_map then
    let row_img_url := strip (str (get row image_col_map (CellStr ""))) in
    if startswith row_img_url "http" then row_img_url else ""
  else "".

(** ** JSON values and exceptions *)

Inductive json : Type :=
  | JNull
  | JBool (b : bool)
  | JInt (z : Z)
  | JFloat (text : string)
  | JStr (s : string)
  | JArr (l : list json)
  | JObj (d : list (string * json)).

(** The exceptions the handler can meet.  [KeyError] carries the missing
    key, [IllegalCharacterError] the text that the sheet writer refused,
    the others the text that [str(e)] gives. *)
Inductive exn : Type :=
  | KeyError (key : string)
  | IndexError (msg : string)
  | AttributeError (msg : string)
  | ValueError (msg : string)
  | RequestException (msg : string)
  | IllegalCharacterError (text : string).

(** [str(e)]; for a [KeyError] this is the quoted key, for the error of
    the sheet writer it names the text that was refused. *)
Definition str_exn (e : exn) : string :=
  match e with
  | KeyError key => "'" +:+ key +:+ "'"
  | IndexError msg | AttributeError msg | ValueError msg
  | RequestException msg => msg
  | IllegalCharacterError text => text +:+ " cannot be used in worksheets."
  end.

(** The Python type name of a decoded JSON value. *)
Definition type_name (j : json) : string :=
  match j with
  | JNull => "NoneType"
  | JBool _ => "bool"
  | JInt _ => "int"
  | JFloat _ => "float"
  | JStr _ => "str"
  | JArr _ => "list"
  | JObj _ => "dict"
  end.

(** ** The notification API as seen by one call *)

(** The arguments of [requests.post]. *)
Record request : Type := Request {
  req_url : string;
  req_json : json;
  req_headers : dict string;
  req_timeout : option Z
}.

(** A received response: its status and what [response.json()] gives,
    either the decoded body or the text of the decoding error. *)
Record response : Type := Response {
  status_code : Z;
  body : string + json
}.

(** What the network does with a request: answer, fail with a transport
    error, or stay silent for ever. *)
Inductive net_event : Type :=
  | Replies (r : response)
  | Raises (msg : string)
  | Silent.

(** ** Objects, the store and the task monad *)

(** Values held in the dictionaries the task builds: text, or a reference
    to a dictionary in the store. *)
Inductive pyval : Type :=
  | PStr (s : string)
  | PRef (l : nat).

Record state : Type := State {
  heap : list (dict pyval);       (* the dictionaries allocated so far *)
  wire : list request             (* the requests handed to the network *)
}.

Definition init : state := {| heap := []; wire := [] |}.

(** Running a piece of the task: it returns, raises, or never returns. *)
Inductive outcome (A : Type) : Type :=
  | Return (a : A)
  | Raise (e : exn)
  | Hang.
Arguments Return {A} a.
Arguments Raise {A} e.
Arguments Hang {A}.

Definition M (A : Type) : Type := state → outcome A * state.

Definition ret {A} (a : A) : M A := λ st, (Return a, st).

Definition bind {A B} (m : M A) (f : A → M B) : M B :=
  λ st, match m st with
        | (Return a, st') => f a st'
        | (Raise e, st') => (Raise e, st')
        | (Hang, st') => (Hang, st')
        end.

Definition raise {A} (e : exn) : M A := λ st, (Raise e, st).

(** [try: m except Exception as e: h e] *)
Definition try_except {A} (m : M A) (h : exn → M A) : M A :=
  λ st, match m st with
        | (Raise e, st') => h e st'
        | r => r
        end.

Notation "'let*' x ':=' m 'in' k" := (bind m (λ x, k))
  (at level 10, x name, m at level 100, k at level 200, only parsing).

(** A dictionary display [{...}]: a new object in the store. *)
Definition new_dict (d : dict pyval) : M nat :=
  λ st, (Return (length (heap st)),
         {| heap := heap st ++ [d]; wire := wire st |}).

(** [o[k] = v] on the object at [l]. *)
Definition setitem (l : nat) (k : string) (v : pyval) : M unit :=
  λ st, (Return tt,
         {| heap := alter (dict_set k v) l (heap st); wire := wire st |}).

(** [d[k]] on a dictionary of the enclosing scope. *)
Definition getitem {V} (d : dict V) (k : string) : M V :=
  match dict_get k d with
  | Some v => ret v
  | None => raise (KeyError k)
  end.

(** [for x in xs: body x] *)
Fixpoint for_each {A} (xs : list A) (body : A → M unit) : M unit :=
  match xs with
  | [] => ret tt
  | x :: xs' => let* _ := body x in for_each xs' body
  end.

(** One entry of a dictionary under a translation of its value. *)
Definition dump_entry {V W} (f : V → option W) (kv : string * V)
  : option (string * W) :=
  j ← f kv.2; Some (kv.1, j).

(** [json.dumps] as [requests] applies it to the [json=] argument: follow
    the references of the store.  A chain of references longer than the
    store has objects goes round a cycle, which [json.dumps] rejects. *)
Fixpoint dumps (fuel : nat) (h : list (dict pyval)) (v : pyval) {struct fuel}
  : option json :=
  match v with
  | PStr s => Some (JStr s)
  | PRef l =>
      match fuel with
      | O => None
      | S fuel' => d ← h !! l; JObj <$> mapM (dump_entry (dumps fuel' h)) d
      end
  end.

(** [requests.post(url, json=payload, headers=headers, timeout=timeout)]:
    the body is serialised, the request goes on the wire, and the call
    waits for the network.  Without a timeout a silent peer is waited for
    without end; with one the wait ends in a timeout error. *)
Definition requests_post (net : request → net_event) (url : string)
    (payload : nat) (headers : dict string) (timeout : option Z) : M response :=
  λ st,
    match dumps (S (length (heap st))) (heap st) (PRef payload) with
    | None => (Raise (ValueError "Circular reference detected"), st)
    | Some j =>
        let req := {| req_url := url; req_json := j;
                      req_headers := headers; req_timeout := timeout |} in
        let st' := {| heap := heap st; wire := wire st ++ [req] |} in
        match net req with
        | Replies r => (Return r, st')
        | Raises msg => (Raise (RequestException msg), st')
        | Silent =>
            match timeout with
            | Some _ => (Raise (RequestException "Read timed out."), st')
            | None => (Hang, st')
            end
        end
    end.

(** [response.json()] *)
Definition response_json (r : response) : M json :=
  match body r with
  | inl msg => raise (RequestException msg)
  | inr j => ret j
  end.

(** [resp_json.get(k, default)]: only a decoded object has [get]. *)
Definition json_get (j : json) (k : string) (default : json) : M json :=
  match j with
  | JObj d => ret (get d k default)
  | _ => raise (AttributeError
                  ("'" +:+ type_name j +:+ "' object has no attribute 'get'"))
  end.

(** ** The send task *)

(** A stored template, with the keys the template form writes. *)
Record template : Type := Template {
  template_name : string;
  template_id : string;
  message : string;
  mappings : dict mapinfo
}.

(** The variables of the handler that [send_message] closes over. *)
Record env : Type := Env {
  image_url : string;
  image_col_map : string;
  column_mapping : dict mapinfo;
  template_obj : template;
  url : string;
  headers : dict string
}.

(** What a task returns: [(i, status, message)]. *)
Abbreviation result := (nat * string * json)%type (only parsing).

(** Lines 228-235: the loop that fills the dictionary [params]. *)
Definition fill_params (column_mapping : dict mapinfo) (row : Series)
    (params : nat) : M unit :=
  for_each column_mapping (λ '(field, mapinfo),
    if decide (field = "mobile_no") then ret tt
    else setitem params field (PStr (resolve row mapinfo))).

(** Lines 215-259. *)
Definition send_message (E : env) (net : request → net_event)
    (i : nat) (row : Series) : M result :=
  try_except
    (let final_img := final_img (image_url E) (image_col_map E) row in
     let* params := new_dict [] in
     let* _ := fill_params (column_mapping E) row params in
     let* mobile := getitem (column_mapping E) "mobile_no" in
     let* userDetails := new_dict
       [("number", PStr (str (get row (mvalue mobile) (CellStr ""))))] in
     let* notification := new_dict
       [("type", PStr "whatsapp");
        ("sender", PStr "919311239211");
        ("templateId", PStr (template_id (template_obj E)));
        ("params", PRef params)] in
     let* payload := new_dict
       [("userDetails", PRef userDetails);
        ("notification", PRef notification)] in
     let* _ :=
       if truthy final_img then
         let* media := new_dict [("mediaLink", PStr final_img)] in
         setitem params "media" (PRef media)
       else ret tt in
     let* response := requests_post net (url E) payload (headers E) None in
     let* resp_json := response_json response in
     if bool_decide (status_code response ∈ [200; 202]%Z) then
       let* msg := json_get resp_json "message" (JStr "Success") in
       ret (i, "Sent", msg)
     else
       let* msg := json_get resp_json "message"
                     (JStr ("HTTP " +:+ str_int (status_code response))) in
       ret (i, "Failed", msg))
    (λ e, ret (i, "Error", JStr (str_exn e))).

(** One task run on its own store: its outcome and the requests it sent. *)
Definition run_task (E : env) (net : request → net_event)
    (i : nat) (row : Series) : outcome result * list request :=
  let '(o, st) := send_message E net i row init in (o, wire st).

(** ** The batch: submission and merge (lines 212-276) *)

(** A table: column labels and, per row, the values. *)
Record Frame (V : Type) : Type := {
  columns : list string;
  data : list (list V)
}.
Arguments columns {V} _.
Arguments data {V} _.

(** The uploaded table. *)
Abbreviation DataFrame := (Frame cell) (only parsing).

(** [len(df)] *)
Definition len {V} (df : Frame V) : nat := length (data df).

(** The type that pandas gives a column: 64-bit integers, signed or, when
    a value needs it, unsigned; floats; or Python objects. *)
Inductive dtype : Type := int64 | uint64 | float64 | object.

#[global] Instance dtype_eq_dec : EqDecision dtype.
Proof. solve_decision. Defined.

Definition is_int64 (c : cell) : bool :=
  match c with
  | CellInt z => bool_decide (- 2 ^ 63 ≤ z < 2 ^ 63)%Z
  | _ => false
  end.

Definition is_uint64 (c : cell) : bool :=
  match c with
  | CellInt z => bool_decide (0 ≤ z < 2 ^ 64)%Z
  | _ => false
  end.

Definition is_float (c : cell) : bool :=
  match c with
  | CellFloat _ => true
  | _ => false
  end.

Definition column_dtype (vals : list cell) : dtype :=
  if forallb is_int64 vals then int64
  else if forallb is_uint64 vals then uint64
  else if forallb is_float vals then float64
  else object.

(** The values of the column at position [j]. *)
Definition column (df : DataFrame) (j : nat) : list cell :=
  omap (λ r : list cell, r !! j) (data df).

Definition dtypes (df : DataFrame) : list dtype :=
  (λ j, column_dtype (column df j)) <$> seq 0 (length (columns df)).

(** A row taken out of the table has one type for all its values, the
    common type of the columns.  When every column holds numbers and
    they are not all integers of the same kind, that type is the float,
    and the integers of the row become floats; in every other case the
    values are handed out as they are. *)
Definition upcasts (df : DataFrame) : bool :=
  forallb (λ t, negb (bool_decide (t = object))) (dtypes df)
  && (bool_decide (float64 ∈ dtypes df)
      || (bool_decide (int64 ∈ dtypes df)
          && bool_decide (uint64 ∈ dtypes df))).

Definition as_float (c : cell) : cell :=
  match c with
  | CellInt z => CellFloat (float_text z)
  | _ => c
  end.

Definition row_values (df : DataFrame) (vals : list cell) : list cell :=
  if upcasts df then as_float <$> vals else vals.

(** The row of the table with the values [vals], as it is handed out. *)
Definition labelled (df : DataFrame) (vals : list cell) : Series :=
  zip (columns df) (row_values df vals).

(** [df.iterrows()]: every row with its index, labelled by the columns. *)
Definition iterrows (df : DataFrame) : list (nat * Series) :=
  imap (λ i vals, (i, labelled df vals)) (data df).

(** Line 267: one future per row; [net i] is the network as the task of
    row [i] meets it. *)
Definition submit_all (E : env) (net : nat → request → net_event)
    (df : DataFrame) : list (outcome result * list request) :=
  (λ '(i, row), run_task E (net i) i row) <$> iterrows df.

(** [as_completed(futures)]: the futures in the order [sched] in which
    they finish, given as positions in the list of futures. *)
Definition as_completed {A} (futures : list A) (sched : list nat) : list A :=
  omap (λ k, futures !! k) sched.

Definition and_then {A B} (o : outcome A) (f : A → outcome B) : outcome B :=
  match o with
  | Return a => f a
  | Raise e => Raise e
  | Hang => Hang
  end.

(** [l[i] = v] on a Python list. *)
Definition list_assign {A} (l : list A) (i : nat) (v : A) : outcome (list A) :=
  if decide (i < length l) then Return (<[i:=v]> l)
  else Raise (IndexError "list assignment index out of range").

(** Lines 268-273: the loop over the completed futures. *)
Fixpoint merge (futures : list (outcome result)) (status : list string)
    (response_texts : list json) (completed : nat)
  : outcome (list string * list json * nat) :=
  match futures with
  | [] => Return (status, response_texts, completed)
  | future :: rest =>
      and_then future (λ '(i, stat, msg),
      and_then (list_assign status i stat) (λ status',
      and_then (list_assign response_texts i msg) (λ response_texts',
      merge rest status' response_texts' (S completed))))
  end.

(** Lines 212-273: the result lists once every future has been merged. *)
Definition dispatch (E : env) (net : nat → request → net_event)
    (df : DataFrame) (sched : list nat)
  : outcome (list string * list json * nat) :=
  let status := replicate (len df) "" in
  let response_texts := replicate (len df) (JStr "") in
  let futures := submit_all E net df in
  merge (as_completed (fst <$> futures) sched) status response_texts 0.

(** Every request the batch put on the wire. *)
Definition network_calls (E : env) (net : nat → request → net_event)
    (df : DataFrame) : list request :=
  mjoin (snd <$> submit_all E net df).


(** ** The report (lines 275-291) *)

(** [df[name] = vals]: replace the column of that label, or add it last. *)
Definition set_column {V} (name : string) (vals : list V) (df : Frame V)
  : Frame V :=
  match list_find (λ c, c = name) (columns df) with
  | Some (j, _) =>
      {| columns := columns df;
         data := zip_with (λ r v, <[j:=v]> r) (data df) vals |}
  | None =>
      {| columns := columns df ++ [name];
         data := zip_with (λ r v, r ++ [v]) (data df) vals |}
  end.

(** A value of the table once the result columns are in: a scalar, or a
    list or dictionary that a task returned as its message. *)
Inductive pyobj : Type :=
  | Scalar (c : cell)
  | Container (j : json).

(** A decoded message as a Python object. *)
Definition obj_of_json (j : json) : pyobj :=
  match j with
  | JStr s => Scalar (CellStr s)
  | JInt z => Scalar (CellInt z)
  | JFloat text => Scalar (CellFloat text)
  | JBool b => Scalar (CellOther (if b then "True" else "False"))
  | JNull => Scalar CellNone
  | JArr _ | JObj _ => Container j
  end.

(** What pandas makes of a list of objects that it stores as a column.
    A list of numbers and [None], with a number in it, and with a float
    or a [None] in it, becomes a column of floats: the integers are
    converted and [None] becomes NaN.  The integers must fit 64 bits, all
    of them signed or all of them unsigned.  Any other list is stored as
    it is. *)
Definition is_number (j : json) : bool :=
  match j with
  | JInt _ | JFloat _ => true
  | _ => false
  end.

Definition float_or_none (j : json) : bool :=
  match j with
  | JFloat _ | JNull => true
  | _ => false
  end.

Definition number_or_none (j : json) : bool :=
  match j with
  | JInt z => bool_decide (- 2 ^ 63 ≤ z < 2 ^ 64)%Z
  | JFloat _ | JNull => true
  | _ => false
  end.

Definition negative (j : json) : bool :=
  match j with
  | JInt z => bool_decide (z < 0)%Z
  | _ => false
  end.

Definition beyond_int64 (j : json) : bool :=
  match j with
  | JInt z => bool_decide (2 ^ 63 ≤ z)%Z
  | _ => false
  end.

Definition stored_as_floats (values : list json) : bool :=
  forallb number_or_none values
  && existsb is_number values
  && existsb float_or_none values
  && negb (existsb negative values && existsb beyond_int64 values).

Definition float_of_json (j : json) : pyobj :=
  match j with
  | JInt z => Scalar (CellFloat (float_text z))
  | JNull => Scalar (CellFloat "nan")
  | _ => obj_of_json j
  end.

Definition infer (values : list json) : list pyobj :=
  if stored_as_floats values then float_of_json <$> values
  else obj_of_json <$> values.

(** Lines 275-276: the table with its two result columns. *)
Definition with_results (df : DataFrame) (status : list string)
    (response_texts : list json) : Frame pyobj :=
  let df := {| columns := columns df;
               data := (λ r : list cell, Scalar <$> r) <$> data df |} in
  let df := set_column "Status" (Scalar ∘ CellStr <$> status) df in
  set_column "API Response" (infer response_texts) df.

(** The value of a cell of the sheet as [load_workbook] gives it:
    nothing; a text; the number, boolean or date that comes back for a
    scalar written as such (the sheet keeps 16 significant digits of a
    number, and a float without a fraction comes back as an integer); or
    the text [str(j)] of a list or dictionary [j], cut after 32767
    characters. *)
Inductive xl : Type :=
  | XlNone
  | XlText (s : string)
  | XlScalar (c : cell)
  | XlStrOf (j : json).

(** The bytes 80..BF continue a character that an earlier byte began. *)
Definition continuation (c : ascii) : bool :=
  (128 <=? byte c)%nat && (byte c <=? 191)%nat.

(** [s[:n]], the first [n] characters of a text. *)
Fixpoint take_chars (n : nat) (s : string) : string :=
  match s with
  | EmptyString => EmptyString
  | String c r =>
      if continuation c then String c (take_chars n r)
      else match n with
           | O => EmptyString
           | S n' => String c (take_chars n' r)
           end
  end.

(** The control characters that the sheet writer refuses in a text:
    0..8, 11, 12 and 14..31. *)
Definition illegal (c : ascii) : bool :=
  (byte c <=? 8)%nat
  || ((11 <=? byte c)%nat && (byte c <=? 12)%nat)
  || ((14 <=? byte c)%nat && (byte c <=? 31)%nat).

Fixpoint has_illegal (s : string) : bool :=
  match s with
  | EmptyString => false
  | String c r => illegal c || has_illegal r
  end.

(** A text as the sheet keeps it: its first 32767 characters. *)
Definition max_text : nat := 2 ^ 15 - 1.

Definition kept (s : string) : string := take_chars max_text s.
Arguments max_text : simpl never.
Arguments kept : simpl never.

(** A missing value of the table: [None], NaN, and the missing timestamp
    and scalar. *)
Definition isna (c : cell) : bool :=
  match c with
  | CellNone => true
  | CellFloat text => bool_decide (text = "nan")
  | CellOther text => bool_decide (text ∈ ["NaT"; "<NA>"])
  | _ => false
  end.

(** The text that the writer is given for an object, if it is given one:
    a missing value is written as the empty text, an infinite float as
    [inf] or [-inf]; a list or dictionary is written as its [str], in
    which control characters are escaped. *)
Definition written_text (v : pyobj) : option string :=
  match v with
  | Scalar c =>
      if isna c then Some ""
      else match c with
           | CellStr s => Some s
           | CellFloat text =>
               if bool_decide (text ∈ ["inf"; "-inf"]) then Some text else None
           | _ => None
           end
  | Container _ => None
  end.

(** An object of the table as a cell of the sheet: how it is written and
    then read back.  An empty text leaves the cell empty. *)
Definition excel_value (v : pyobj) : xl :=
  match written_text v with
  | Some s => if decide (s = "") then XlNone else XlText (kept s)
  | None =>
      match v with
      | Scalar c => XlScalar c
      | Container j => XlStrOf j
      end
  end.

(** A cell of the loaded workbook: its value and its fill colour. *)
Record ws_cell : Type := { value : xl; fill : option string }.

(** The active sheet, row by row; row 1 holds the column labels. *)
Abbreviation worksheet := (list (list ws_cell)) (only parsing).

(** The texts handed to the writer, in the order of writing: the labels,
    then the values column by column. *)
Definition texts_written (df : Frame pyobj) : list string :=
  columns df
  ++ mjoin ((λ j, omap (λ r : list pyobj, r !! j ≫= written_text) (data df))
              <$> seq 0 (length (columns df))).

(** The writer refuses no text of the table. *)
Definition writable (df : Frame pyobj) : bool :=
  forallb (λ s, negb (has_illegal (kept s))) (texts_written df).

(** The sheet that holds the table: the labels in row 1, then the rows. *)
Definition sheet (df : Frame pyobj) : worksheet :=
  let plain (v : xl) := {| value := v; fill := None |} in
  (plain ∘ excel_value ∘ Scalar ∘ CellStr <$> columns df)
  :: ((λ r : list pyobj, plain ∘ excel_value <$> r) <$> data df).

(** [df.to_excel(output_file, index=False)] read back by
    [load_workbook(output_file).active]: the writer stops at the first
    text that, cut to the length it keeps, has a control character it
    refuses. *)
Definition to_excel (df : Frame pyobj) : outcome worksheet :=
  match list_find (λ s, has_illegal (kept s) = true) (texts_written df) with
  | Some (_, s) => Raise (IllegalCharacterError (kept s))
  | None => Return (sheet df)
  end.

Definition max_row (ws : worksheet) : nat := length ws.

Definition max_column (ws : worksheet) : nat :=
  foldr Nat.max 0 (length <$> ws).

(** [ws.cell(row, column).value], rows and columns counted from 1; a cell
    the sheet does not hold is empty. *)
Definition cell_value (ws : worksheet) (row column : nat) : xl :=
  match ws !! (row - 1) ≫= (λ r, r !! (column - 1)) with
  | Some c => value c
  | None => XlNone
  end.

(** [ws.cell(row, column).fill = colour] *)
Definition set_fill (ws : worksheet) (row column : nat) (colour : string)
  : worksheet :=
  alter (alter (λ c, {| value := value c; fill := Some colour |}) (column - 1))
        (row - 1) ws.

Definition red_fill : string := "FFC7CE".

(** [str(v)] for the value of a cell, where the model holds the text. *)
Definition xl_text (v : xl) : option string :=
  match v with
  | XlNone => Some "None"
  | XlText s => Some s
  | XlScalar _ | XlStrOf _ => None
  end.

(** [str(v).lower() in ["failed", "error"]] (line 288).  The text of a
    number, a boolean or a date is neither word, and that of a list or
    dictionary begins with a bracket. *)
Definition failed_or_error (v : xl) : bool :=
  match xl_text v with
  | Some s => bool_decide (lower s ∈ ["failed"; "error"])
  | None => false
  end.

(** Lines 287-290. Column D is column 4. *)
Definition highlight (ws : worksheet) : worksheet :=
  foldl (λ ws row_idx,
    if failed_or_error (cell_value ws row_idx 4)
    then foldl (λ ws col_idx, set_fill ws row_idx col_idx red_fill)
               ws (seq 1 (max_column ws))
    else ws)
    ws (seq 2 (max_row ws - 1)).

(** Lines 275-291: the sheet saved for a table and its result lists. *)
Definition build_report (df : DataFrame) (status : list string)
    (response_texts : list json) : outcome worksheet :=
  and_then (to_excel (with_results df status response_texts)) (λ ws,
  Return (highlight ws)).

(** Lines 212-291 in one piece. *)
Definition send_button (E : env) (net : nat → request → net_event)
    (df : DataFrame) (sched : list nat) : outcome worksheet :=
  and_then (dispatch E net df sched) (λ '(status, response_texts, _),
  build_report df status response_texts).

(** The values held in a sheet, row by row. *)
Definition values (ws : worksheet) : list (list xl) :=
  (λ r : list ws_cell, value <$> r) <$> ws.

(** A row of the sheet carries the marking when its cells have the red fill. *)
Definition marked (r : list ws_cell) : bool :=
  forallb (λ c, bool_decide (fill c = Some red_fill)) r.

(** The marking of the data rows of a sheet, top to bottom. *)
Definition markings (ws : worksheet) : list bool := marked <$> drop 1 ws.

(** ** The mapping form (lines 145-159) *)

Definition newline : ascii := ascii_of_nat 10.

(** The text matched by [.*?] before the first closing braces, and what
    follows them; [.] does not match a line break. *)
Fixpoint until_close (s : string) : option (string * string) :=
  match s with
  | EmptyString => None
  | String c r =>
      match r with
      | String c' r' =>
          if decide (c = "}"%char ∧ c' = "}"%char) then Some (EmptyString, r')
          else if decide (c = newline) then None
          else '(g, t) ← until_close r; Some (String c g, t)
      | EmptyString => None
      end
  end.

(** One match of [\{\{(.*?)\}\}] that starts at the head of [s]: the
    captured group and the text after the match. *)
Definition match_here (s : string) : option (string * string) :=
  match s with
  | String c (String c' r) =>
      if decide (c = "{"%char ∧ c' = "{"%char) then until_close r else None
  | _ => None
  end.

(** [re.findall(r"\{\{(.*?)\}\}", s)]: scan left to right, take a match
    where there is one and go on after it, else move on by one character. *)
Fixpoint findall (fuel : nat) (s : string) : list string :=
  match fuel, s with
  | S fuel', String _ r =>
      match match_here s with
      | Some (g, t) => g :: findall fuel' t
      | None => findall fuel' r
      end
  | _, _ => []
  end.

(** Line 145. *)
Definition required_fields (t : template) : list string :=
  findall (String.length (message t)) (message t).

(** The state of the three widgets that [map_column] draws under one key
    prefix, as the user left them. *)
Record widgets : Type := {
  radio : string;
  selectbox : string;
  text_input : string
}.

(** Lines 43-67: the mapping chosen for one field. *)
Definition map_column (ui : string → widgets) (key_prefix : string) : mapinfo :=
  let w := ui key_prefix in
  if decide (radio w = "Column")
  then {| mtype := "column"; mvalue := selectbox w |}
  else {| mtype := "custom"; mvalue := text_input w |}.

(** The keys of the two widgets that [map_column] draws under a prefix,
    in the order in which it draws them: the radio, then the select box
    or the text input (lines 50, 57, 63). *)
Definition widget_keys (ui : string → widgets) (key_prefix : string)
  : list string :=
  [key_prefix +:+ "_type";
   if decide (radio (ui key_prefix) = "Column")
   then key_prefix +:+ "_col" else key_prefix +:+ "_custom"].

(** Streamlit accepts a widget only under a key that no widget of the
    run has yet: the keys in use after the new ones are drawn, or the
    first new key that is taken, at which the run stops. *)
Fixpoint draw (new keys : list string) : string + list string :=
  match new with
  | [] => inr keys
  | key :: new' =>
      if decide (key ∈ keys) then inl key else draw new' (keys ++ [key])
  end.

(** The mapping form: the mapping it has built, or the key of the widget
    at which Streamlit stopped the run. *)
Inductive form : Type :=
  | Built (column_mapping : dict mapinfo)
  | DuplicateKey (key : string).

(** The form while it is drawn: the widget keys in use and the mapping
    so far. *)
Definition map_field (ui : string → widgets) (field key_prefix : string)
    (f : string + list string * dict mapinfo)
  : string + list string * dict mapinfo :=
  match f with
  | inl key => inl key
  | inr (keys, column_mapping) =>
      match draw (widget_keys ui key_prefix) keys with
      | inl key => inl key
      | inr keys' =>
          inr (keys', dict_set field (map_column ui key_prefix) column_mapping)
      end
  end.

(** Lines 149-159. *)
Definition build_column_mapping (ui : string → widgets) (t : template)
  : form :=
  match foldl (λ f field, map_field ui field ("map_" +:+ field) f)
              (map_field ui "mobile_no" "mobile_map" (inr ([], [])))
              (required_fields t) with
  | inl key => DuplicateKey key
  | inr (_, column_mapping) => Built column_mapping
  end.

(** The names a complete mapping specification must bind, and those among
    them that a given mapping leaves out. *)
Definition required_names (t : template) : list string :=
  "mobile_no" :: required_fields t.


(** ** The preview (lines 186-198) *)

(** [s.replace("", new)]: [new] before every character and at the end. *)
Fixpoint interleave (new s : string) : string :=
  match s with
  | EmptyString => new
  | String c r => new +:+ String c (interleave new r)
  end.

(** The scan of [s.replace(old, new)] for a non-empty [old]: left to
    right, an occurrence of [old] gives [new] and the scan goes on after
    it; [skip] counts the characters of the occurrence still to pass. *)
Fixpoint replace_from (old new : string) (skip : nat) (s : string) : string :=
  match s with
  | EmptyString => EmptyString
  | String c r =>
      match skip with
      | S k => replace_from old new k r
      | O =>
          if String.prefix old s
          then new +:+ replace_from old new (String.length old - 1) r
          else String c (replace_from old new 0 r)
      end
  end.

(** [s.replace(old, new)] *)
Definition replace (s old new : string) : string :=
  if decide (old = "") then interleave new s else replace_from old new 0 s.

(** Lines 187-196: one replacement per mapped field, in mapping order. *)
Definition preview_message (column_mapping : dict mapinfo) (message : string)
    (row : Series) : string :=
  foldl (λ preview_message '(field, mapinfo),
           if decide (field = "mobile_no") then preview_message
           else replace preview_message ("{{" +:+ field +:+ "}}")
                        (resolve row mapinfo))
        message column_mapping.

(** Lines 186-200: the recipient and the text shown, or the exception
    that the [try] turns into a preview error. *)
Definition preview (column_mapping : dict mapinfo) (t : template)
    (df : DataFrame) : outcome (string * string) :=
  match iterrows df with
  | [] => Raise (IndexError "single positional indexer is out-of-bounds")
  | (_, row) :: _ =>
      let shown := preview_message column_mapping (message t) row in
      match dict_get "mobile_no" column_mapping with
      | Some mobile =>
          Return (str (get row (mvalue mobile) (CellStr "")), shown)
      | None => Raise (KeyError "mobile_no")
      end
  end.

(** ** The template store (lines 13-41, 78-124, 141-142, 203-206) *)

(** A saved mapping entry: the dictionary that [map_column] returned, as
    read back from the file, or a plain string (the image column). *)
Inductive saved : Type :=
  | SavedDict (d : gmap string string)
  | SavedText (s : string).

#[global] Instance saved_eq_dec : EqDecision saved.
Proof. solve_decision. Defined.

(** A template as the file holds it; [t.get("mappings")] may be absent. *)
Record stored : Type := Stored {
  t_name : string;
  t_id : string;
  t_message : string;
  t_mappings : option (gmap string saved)
}.

#[global] Instance stored_eq_dec : EqDecision stored.
Proof. solve_decision. Defined.

(** The file [templates.json], if it exists, and the cached resource. *)
Record store : Type := Store {
  file : option (list stored);
  cache : option (list stored)
}.

(** Lines 20-24. *)
Definition load_templates (s : store) : list stored := default [] (file s).

(** Lines 26-29: write the file and clear the cache. *)
Definition save_templates (templates : list stored) (s : store) : store :=
  {| file := Some templates; cache := None |}.

(** Lines 16-18: the cached list, loaded on first use. *)
Definition get_templates_cached (s : store) : list stored * store :=
  match cache s with
  | Some templates => (templates, s)
  | None => (load_templates s,
             {| file := file s; cache := Some (load_templates s) |})
  end.

(** Lines 31-38: the first template of that name gets the mappings, and
    the file is written only if they differ from what it has. *)
Definition update_template_mapping (template_name : string)
    (mappings : gmap string saved) (s : store) : store :=
  let templates := load_templates s in
  match list_find (λ t, t_name t = template_name) templates with
  | Some (i, t) =>
      if decide (t_mappings t ≠ Some mappings)
      then save_templates
             (<[i := {| t_name := t_name t; t_id := t_id t;
                        t_message := t_message t;
                        t_mappings := Some mappings |}]> templates) s
      else s
  | None => s
  end.

(** Lines 40-41. *)
Definition get_template_mapping (template_obj : stored)
  : gmap string saved :=
  default ∅ (t_mappings template_obj).

(** Lines 79-95: the form that adds a template. *)
Definition add_template (t_name t_id t_msg : string) (s : store) : store :=
  let '(templates, s) := get_templates_cached s in
  if truthy t_name && truthy t_msg && truthy t_id
  then save_templates
         (templates ++ [{| t_name := t_name; t_id := t_id;
                           t_message := t_msg; t_mappings := Some ∅ |}]) s
  else s.

(** Lines 107-115: the update button of the template at [idx]. *)
Definition update_template (idx : nat) (new_name new_id new_msg : string)
    (s : store) : store :=
  let '(templates, s) := get_templates_cached s in
  match templates !! idx with
  | Some t =>
      save_templates
        (<[idx := {| t_name := new_name; t_id := new_id;
                     t_message := new_msg;
                     t_mappings := Some (default ∅ (t_mappings t)) |}]>
           templates) s
  | None => s
  end.

(** Lines 117-122: the delete button of the template at [idx]. *)
Definition delete_template (idx : nat) (s : store) : store :=
  let '(templates, s) := get_templates_cached s in
  match templates !! idx with
  | Some _ => save_templates (delete idx templates) s
  | None => s
  end.

(** Lines 141-142: the first template of the selected name. *)
Definition select_template (selected_template : string)
    (templates : list stored) : option stored :=
  snd <$> list_find (λ t, t_name t = selected_template) templates.

(** The dictionary of one mapping as it is written to the file. *)
Definition saved_of (m : mapinfo) : saved :=
  SavedDict (<["type" := mtype m]> (<["value" := mvalue m]> ∅)).

(** Lines 203-205: a copy of the mapping, with the image column if one
    is chosen. *)
Definition mapping_to_save (column_mapping : dict mapinfo)
    (image_col_map : string) : gmap string saved :=
  let copy : gmap string saved :=
    list_to_map (prod_map id saved_of <$> column_mapping) in
  if truthy image_col_map
  then <["image_column" := SavedText image_col_map]> copy
  else copy.

(** Lines 44-45: the type and the value read from a saved entry. *)
Definition saved_type (sv : saved) : string :=
  match sv with
  | SavedDict d => default "column" (d !! "type")
  | SavedText _ => "column"
  end.

Definition saved_value (sv : saved) : string :=
  match sv with
  | SavedDict d => default "" (d !! "value")
  | SavedText s => s
  end.

(** Lines 47-65: the widgets of [map_column] as they are first drawn for
    a saved entry, before the user touches them. *)
Definition drawn (columns : list string) (sv : saved) : widgets :=
  let idx := match list_find (λ c, c = saved_value sv) columns with
             | Some (i, _) => i
             | None => 0
             end in
  {| radio := if decide (saved_type sv = "column") then "Column" else "Custom";
     selectbox := default "" (columns !! idx);
     text_input := saved_value sv |}.

(** ** Derived notions used in the statements *)

(** The two shapes of mapping that [map_column] returns (lines 60, 66). *)
Definition Column (name : string) : mapinfo :=
  {| mtype := "column"; mvalue := name |}.
Definition Literal (val : string) : mapinfo :=
  {| mtype := "custom"; mvalue := val |}.

(** The parameters collected by the loop of lines 227-235, as plain text. *)
Definition params_text (cm : dict mapinfo) (row : Series) (d : dict string)
  : dict string :=
  foldl (λ d '(field, m),
           if decide (field = "mobile_no") then d
           else dict_set field (resolve row m) d) d cm.

Definition pstr : string * string → string * pyval := prod_map id PStr.
Definition jstr : string * string → string * json := prod_map id JStr.

(** What a task returns once its request has met the network. *)
Definition answer (i : nat) (ev : net_event) : outcome result :=
  match ev with
  | Replies r =>
      match body r with
      | inl msg => Return (i, "Error", JStr msg)
      | inr (JObj d) =>
          if bool_decide (status_code r ∈ [200; 202]%Z)
          then Return (i, "Sent", get d "message" (JStr "Success"))
          else Return (i, "Failed",
                       get d "message"
                         (JStr ("HTTP " +:+ str_int (status_code r))))
      | inr j =>
          Return (i, "Error",
                  JStr ("'" +:+ type_name j +:+
                        "' object has no attribute 'get'"))
      end
  | Raises msg => Return (i, "Error", JStr msg)
  | Silent => Hang
  end.

(** The body that a task puts on the wire when [mobile_no] is mapped to
    [mobile]. *)
Definition payload_json (E : env) (row : Series) (mobile : mapinfo) : json :=
  let img := final_img (image_url E) (image_col_map E) row in
  let ps := jstr <$> params_text (column_mapping E) row [] in
  JObj
    [("userDetails",
      JObj [("number", JStr (str (get row (mvalue mobile) (CellStr ""))))]);
     ("notification",
      JObj [("type", JStr "whatsapp");
            ("sender", JStr "919311239211");
            ("templateId", JStr (template_id (template_obj E)));
            ("params",
             JObj (if truthy img
                   then dict_set "media" (JObj [("mediaLink", JStr img)]) ps
                   else ps))])].

Definition sent_request (E : env) (row : Series) (mobile : mapinfo) : request :=
  {| req_url := url E; req_json := payload_json E row mobile;
     req_headers := headers E; req_timeout := None |}.

(** The member [k] of a JSON object. *)
Definition member (k : string) (j : json) : option json :=
  match j with
  | JObj d => dict_get k d
  | _ => None
  end.

Definition is_text (j : json) : Prop := ∃ s, j = JStr s.

(** A URL scheme at the head of a text: a letter, then letters, digits,
    [+], [-] or [.], up to a colon. *)
Definition is_alpha (c : ascii) : bool :=
  ((65 <=? byte c)%nat && (byte c <=? 90)%nat)
  || ((97 <=? byte c)%nat && (byte c <=? 122)%nat).

Definition is_scheme_char (c : ascii) : bool :=
  is_alpha c || ((48 <=? byte c)%nat && (byte c <=? 57)%nat)
  || bool_decide (c = "+"%char ∨ c = "-"%char ∨ c = "."%char).

Fixpoint scheme_ends (s : string) : bool :=
  match s with
  | EmptyString => false
  | String c r =>
      bool_decide (c = ":"%char) || (is_scheme_char c && scheme_ends r)
  end.

Definition begins_with_scheme (s : string) : bool :=
  match s with
  | EmptyString => false
  | String c r => is_alpha c && scheme_ends r
  end.

(** The choice of the image by the scheme of the value: the uploaded image
    first; else the value of the image column if it begins with a URL
    scheme; else nothing. *)
Definition image_by_scheme (image_url image_col_map : string) (row : Series)
  : Prop :=
  (image_url ≠ "" → final_img image_url image_col_map row = image_url) ∧
  (image_url = "" →
     ∀ v : cell, dict_get image_col_map row = Some v →
       begins_with_scheme (str v) = true →
       final_img image_url image_col_map row = str v) ∧
  (image_url = "" →
     (dict_get image_col_map row = None ∨
      ∃ v, dict_get image_col_map row = Some v ∧
           begins_with_scheme (str v) = false) →
     final_img image_url image_col_map row = "").

(** The layout of the payload in which the media object is a member of
    [notification] next to [params], and [params] holds text only and no
    [mobile_no]. *)
Definition media_beside_params (req : request) (img : string) : Prop :=
  ∃ notification ps,
    member "notification" (req_json req) = Some notification ∧
    member "media" notification = Some (JObj [("mediaLink", JStr img)]) ∧
    member "params" notification = Some (JObj ps) ∧
    (∀ k v, dict_get k ps = Some v → is_text v) ∧
    dict_get "mobile_no" ps = None.

(** A classification by the status alone: the task ends in one of the
    three outcomes, an answer with status 200 or 202 gives Sent, and an
    answer with any other status gives Failed. *)
Definition classified_by_status (E : env) (net : request → net_event)
    (i : nat) (row : Series) : Prop :=
  (∃ stat msg, (run_task E net i row).1 = Return (i, stat, msg) ∧
               (stat = "Sent" ∨ stat = "Failed" ∨ stat = "Error")) ∧
  (∀ req r, (run_task E net i row).2 = [req] → net req = Replies r →
     status_code r ∈ [200; 202]%Z →
     ∃ msg, (run_task E net i row).1 = Return (i, "Sent", msg)) ∧
  (∀ req r, (run_task E net i row).2 = [req] → net req = Replies r →
     status_code r ∉ [200; 202]%Z →
     ∃ msg, (run_task E net i row).1 = Return (i, "Failed", msg)).

(** A send call bounded by a timeout: the request carries one, and a
    silent network ends the task with an Error result. *)
Definition bounded_by_timeout (E : env) (net : request → net_event)
    (i : nat) (row : Series) : Prop :=
  ∀ req, req ∈ (run_task E net i row).2 →
    is_Some (req_timeout req) ∧
    (net req = Silent →
     ∃ msg, (run_task E net i row).1 = Return (i, "Error", msg)).



(** The message [msg] of a task as the table stores it among the
    messages [values] of the batch. *)
Definition stored_message (values : list json) (msg : json) : pyobj :=
  if stored_as_floats values then float_of_json msg else obj_of_json msg.

(** The mapping that the form builds when it is drawn to its end: the
    choice of the mobile widgets under [mobile_no], then for every
    placeholder the choice of its own widgets. *)
Definition form_mapping (ui : string → widgets) (t : template)
  : dict mapinfo :=
  foldl (λ cm field, dict_set field (map_column ui ("map_" +:+ field)) cm)
        [("mobile_no", map_column ui "mobile_map")]
        (required_fields t).

(** The widget keys of the placeholders [fields]. *)
Definition keys_of (ui : string → widgets) (fields : list string)
  : list string :=
  mjoin ((λ field, widget_keys ui ("map_" +:+ field)) <$> fields).

(** A cell with the red fill, and the test that line 288 makes on the
    values of a row: its fourth value, read as text in lower case. *)
Definition fill_red (c : ws_cell) : ws_cell :=
  {| value := value c; fill := Some red_fill |}.

Definition reads_failed (r : list xl) : bool :=
  failed_or_error (default XlNone (r !! 3)).

(** One row of the sheet after the loop of lines 287-290. *)
Definition highlight_row (r : list ws_cell) : list ws_cell :=
  if reads_failed (value <$> r) then fill_red <$> r else r.

(** A message body cut into pieces: literal text, and placeholders
    written [{{name}}]. *)
Inductive segment : Type :=
  | Text (s : string)
  | Hole (name : string).

Definition seg_text (g : segment) : string :=
  match g with
  | Text s => s
  | Hole name => "{{" +:+ name +:+ "}}"
  end.

Fixpoint flatten (segs : list segment) : string :=
  match segs with
  | [] => ""
  | g :: segs' => seg_text g +:+ flatten segs'
  end.

(** The names of the placeholders, in order of appearance. *)
Definition holes (segs : list segment) : list string :=
  omap (λ g, match g with Hole name => Some name | Text _ => None end) segs.

Fixpoint all_chars (P : ascii → bool) (s : string) : bool :=
  match s with
  | EmptyString => true
  | String c r => P c && all_chars P r
  end.

Definition is_brace (c : ascii) : bool :=
  bool_decide (c = "{"%char ∨ c = "}"%char).

(** Text without braces, and names without braces or line breaks. *)
Definition plain_text (s : string) : bool :=
  all_chars (λ c, negb (is_brace c)) s.

Definition plain_name (s : string) : bool :=
  all_chars (λ c, negb (is_brace c) && negb (bool_decide (c = newline))) s.

Definition plain_segment (g : segment) : bool :=
  match g with
  | Text s => plain_text s
  | Hole name => plain_name name
  end.

(** [p] occurs in [s]. *)
Definition occurs (p s : string) : Prop := ∃ a b, s = a +:+ p +:+ b.

(** The pieces of a message after the placeholders of the mapped fields
    have been filled in for a row. *)
Definition fill_hole (column_mapping : dict mapinfo) (row : Series) (g : segment)
  : segment :=
  match g with
  | Text s => Text s
  | Hole name =>
      if decide (name = "mobile_no") then Hole name
      else match dict_get name column_mapping with
           | Some m => Text (resolve row m)
           | None => Hole name
           end
  end.

(** One placeholder name filled in with a value. *)
Definition subst (name val : string) (g : segment) : segment :=
  match g with
  | Text s => Text s
  | Hole n => if decide (n = name) then Text val else Hole n
  end.

(** The template [t] with the mappings [m] in place of its own. *)
Definition with_mappings (t : stored) (m : gmap string saved) : stored :=
  {| t_name := t_name t; t_id := t_id t; t_message := t_message t;
     t_mappings := Some m |}.

(** The cached list, when there is one, is the list that the file holds. *)
Definition coherent (s : store) : Prop :=
  cache s = None ∨ cache s = Some (load_templates s).

(** What one run of the script can do to the store: draw the tabs, or
    draw them and serve one button. *)
Inductive action : Type :=
  | Draw
  | Add (name id msg : string)
  | Update (idx : nat) (new_name new_id new_msg : string)
  | Delete (idx : nat)
  | Send (template_name : string) (mappings : gmap string saved).

Definition perform (s : store) (a : action) : store :=
  match a with
  | Draw => (get_templates_cached s).2
  | Add name id msg => add_template name id msg s
  | Update idx new_name new_id new_msg =>
      update_template idx new_name new_id new_msg s
  | Delete idx => delete_template idx s
  | Send template_name mappings =>
      update_template_mapping template_name mappings (get_templates_cached s).2
  end.

(** The store after a sequence of runs, the process having started with
    an empty cache. *)
Definition session (f : option (list stored)) (acts : list action) : store :=
  foldl perform {| file := f; cache := None |} acts.

(** [saved_mapping.get(field, {})] of lines 153 and 158. *)
Definition saved_entry (saved_mapping : gmap string saved) (field : string)
  : saved :=
  default (SavedDict ∅) (saved_mapping !! field).

(** A field of the mapping whose placeholder the preview can fill in
    once and for all: its name has no brace, and the value it takes on
    the row has none either. *)
Definition fills_cleanly (row : Series) (kv : string * mapinfo) : Prop :=
  kv.1 = "mobile_no" ∨ (plain_name kv.1 ∧ plain_text (resolve row kv.2)).

(** ** A sample campaign *)

(** The no-break space U+00A0. *)
Definition nbsp : string :=
  String (ascii_of_nat 194) (String (ascii_of_nat 160) EmptyString).

Definition sample_template : template :=
  {| template_name := "welcome"; template_id := "welcome_01";
     message := "Hi {{name}}, your code is {{code}}"; mappings := [] |}.

Definition sample_env : env :=
  {| image_url := ""; image_col_map := "Img";
     column_mapping := [("mobile_no", Column "Phone");
                        ("name", Column "Name"); ("code", Literal "X1")];
     template_obj := sample_template;
     url := "https://cloud.yellow.ai/api/engagements/notifications/v2/push";
     headers := [("Content-Type", "application/json")] |}.

(** The same campaign with an uploaded image. *)
Definition sample_env_image : env :=
  {| image_url := "https://i.ibb.co/a.png"; image_col_map := "Img";
     column_mapping := column_mapping sample_env;
     template_obj := sample_template;
     url := url sample_env; headers := headers sample_env |}.

(** The same campaign with the mobile number typed in as a custom value. *)
Definition sample_env_literal : env :=
  {| image_url := ""; image_col_map := "Img";
     column_mapping := [("mobile_no", Literal "919876543210");
                        ("name", Column "Name"); ("code", Literal "X1")];
     template_obj := sample_template;
     url := url sample_env; headers := headers sample_env |}.

Definition sample_df : DataFrame :=
  {| columns := ["Phone"; "Name"; "Img"];
     data := [[CellInt 919812345601; CellStr "Alice"; CellStr "https://b/c.png"];
              [CellInt 919812345602; CellStr "Bob"; CellFloat "nan"];
              [CellInt 919812345603; CellStr " Carol "; CellStr "ftp://d"]] |}.

Definition sample_row : Series :=
  [("Phone", CellInt 919812345601); ("Name", CellStr "Alice");
   ("Img", CellStr "https://b/c.png")].

(** The first row with no-break spaces around the name. *)
Definition padded_row : Series :=
  [("Phone", CellInt 919812345601);
   ("Name", CellStr (nbsp +:+ "Alice " +:+ nbsp));
   ("Img", CellStr "https://b/c.png")].

(** Row 0 is accepted, row 1 meets a transport error, row 2 is rejected. *)
Definition sample_net (i : nat) (req : request) : net_event :=
  match i with
  | 0 => Replies {| status_code := 200;
                    body := inr (JObj [("message", JStr "queued")]) |}
  | 1 => Raises "Connection refused"
  | _ => Replies {| status_code := 400; body := inr (JObj []) |}
  end.

(** The widgets as left for the sample campaign. *)
Definition sample_ui (key_prefix : string) : widgets :=
  if decide (key_prefix = "mobile_map")
  then {| radio := "Column"; selectbox := "Phone"; text_input := "" |}
  else if decide (key_prefix = "map_name")
  then {| radio := "Column"; selectbox := "Name"; text_input := "" |}
  else {| radio := "Custom"; selectbox := "Phone"; text_input := "X1" |}.

(** A template whose message has the placeholder [name] twice. *)
Definition repeated_template : template :=
  {| template_name := "reminder"; template_id := "reminder_01";
     message := "Hi {{name}}, see you soon, {{name}}"; mappings := [] |}.

(** A table of numbers only: integers and a column of floats. *)
Definition numbers_df : DataFrame :=
  {| columns := ["Phone"; "Due"];
     data := [[CellInt 919812345601; CellFloat "12.5"];
              [CellInt 919812345602; CellFloat "nan"]] |}.

(** A table with the mobile number only, and one with four columns whose
    last one is free text. *)
Definition one_column_df : DataFrame :=
  {| columns := ["Phone"];
     data := [[CellInt 919812345601]; [CellInt 919812345602];
              [CellInt 919812345603]] |}.

Definition four_column_df : DataFrame :=
  {| columns := ["Phone"; "Name"; "City"; "Note"];
     data := [[CellInt 919812345601; CellStr "Alice"; CellStr "Pune";
               CellStr "Error"];
              [CellInt 919812345602; CellStr "Bob"; CellStr "Agra";
               CellStr "vip"];
              [CellInt 919812345603; CellStr "Carol"; CellStr "Kochi";
               CellNone]] |}.

(** The result lists of a batch whose rows end Sent, Failed and Error. *)
Definition sample_status : list string := ["Sent"; "Failed"; "Error"].
Definition sample_texts : list json :=
  [JStr "queued"; JStr "HTTP 400"; JStr "Connection refused"].

(** A template file with two templates, the second without mappings. *)
Definition sample_stored : stored :=
  {| t_name := "welcome"; t_id := "welcome_01";
     t_message := "Hi {{name}}, your code is {{code}}";
     t_mappings := Some ∅ |}.

Definition sample_store : store :=
  {| file := Some [sample_stored;
                   {| t_name := "bye"; t_id := "bye_01";
                      t_message := "Bye {{name}}"; t_mappings := None |}];
     cache := None |}.

(** ** Dictionaries *)

Lemma dict_get_set_eq {V} (k : string) (v : V) (d : dict V) :
  dict_get k (dict_set k v d) = Some v.
Proof.
  induction d as [|[k' v'] d IH]; simpl.
  - by rewrite decide_True.
  - destruct (decide (k' = k)) as [->|Hne]; simpl.
    + by rewrite decide_True.
    + by rewrite decide_False.
Qed.

Lemma dict_get_set_ne {V} (k k0 : string) (v : V) (d : dict V) :
  k ≠ k0 → dict_get k0 (dict_set k v d) = dict_get k0 d.
Proof.
  intros Hne. induction d as [|[k' v'] d IH]; simpl.
  - by rewrite decide_False.
  - destruct (decide (k' = k)) as [->|Hne']; simpl.
    + by rewrite !decide_False.
    + destruct (decide (k' = k0)); done.
Qed.

Lemma dict_get_fmap {V W} (f : V → W) (k : string) (d : dict V) :
  dict_get k (prod_map id f <$> d) = f <$> dict_get k d.
Proof.
  induction d as [|[k' v'] d IH]; simpl; [done|].
  destruct (decide (k' = k)); done.
Qed.

Lemma dict_set_fmap {V W} (f : V → W) (k : string) (v : V) (d : dict V) :
  dict_set k (f v) (prod_map id f <$> d) = prod_map id f <$> dict_set k v d.
Proof.
  induction d as [|[k' v'] d IH]; simpl; [done|].
  destruct (decide (k' = k)); simpl; [done|]. f_equal. apply IH.
Qed.

(** ** C6 and C7: resolution of fields and of the image *)

Lemma fill_params_returns (cm : dict mapinfo) (row : Series) (p : nat)
    (st : state) :
  ∃ st', fill_params cm row p st = (Return tt, st').
Proof.
  unfold fill_params. revert st.
  induction cm as [|[field m] cm IH]; intros st; [by eexists|].
  cbn [for_each]. unfold bind.
  destruct (decide (field = "mobile_no")); apply IH.
Qed.

(** C6. The resolver always yields a string and raises nothing, neither
    alone nor in the loop that applies it to every mapped field: a column
    mapping whose column is absent from the record gives the empty string,
    and a literal mapping gives its value whatever the record holds. *)
Theorem resolve_total (row : Series) (name val : string) :
  (∀ m : mapinfo, ∃ s : string, resolve row m = s) ∧
  (∀ cm p st, ∃ st', fill_params cm row p st = (Return tt, st')) ∧
  (dict_get name row = None → resolve row (Column name) = "") ∧
  (∀ row' : Series, resolve row' (Literal val) = val).
Proof.
  split; [by eauto|]. split; [intros; apply fill_params_returns|]. split.
  - intros Habs. unfold resolve, get. simpl. by rewrite Habs.
  - done.
Qed.

Lemma resolve_total_witness :
  resolve [("Name", CellStr "Alice")] (Column "City") = "" ∧
  resolve [("Name", CellStr "Alice")] (Literal "X1") = "X1" ∧
  resolve [] (Literal "X1") = "X1".
Proof.
  pose proof (resolve_total [("Name", CellStr "Alice")] "City" "X1")
    as (_ & _ & Hcol & Hlit).
  split; [apply Hcol; reflexivity|]. split; apply Hlit.
Defined.

(** C7, as the code has it.  The image of a record is chosen by strict
    priority: the uploaded image when there is one, whatever the record
    holds; else, when an image column is chosen, the text of the record's
    value in that column with the white space at its two ends removed,
    if that text begins with the four characters [http]; else nothing. *)
Theorem final_img_priority (image_url image_col_map : string) (row : Series) :
  (image_url ≠ "" →
     ∀ row' : Series, final_img image_url image_col_map row' = image_url) ∧
  (image_url = "" → image_col_map ≠ "" →
     ∀ v : cell, dict_get image_col_map row = Some v →
       startswith (strip (str v)) "http" = true →
       final_img image_url image_col_map row = strip (str v)) ∧
  (image_url = "" →
     (image_col_map = "" ∨ dict_get image_col_map row = None ∨
      ∃ v, dict_get image_col_map row = Some v ∧
           startswith (strip (str v)) "http" = false) →
     final_img image_url image_col_map row = "").
Proof.
  unfold final_img, truthy, get. repeat split.
  - intros Hne row'. by rewrite bool_decide_true.
  - intros -> Hcol v Hv Hhttp. rewrite bool_decide_false by naive_solver.
    rewrite bool_decide_true by done. rewrite Hv. simpl. by rewrite Hhttp.
  - intros -> H. rewrite bool_decide_false by naive_solver.
    destruct H as [->|[Habs|(v & Hv & Hno)]].
    + by rewrite bool_decide_false by naive_solver.
    + case_bool_decide; [|done]. by rewrite Habs.
    + case_bool_decide; [|done]. rewrite Hv. simpl. by rewrite Hno.
Qed.

Lemma final_img_priority_witness :
  final_img "https://i.ibb.co/a.png" "Img" [("Img", CellStr "http://b")]
    = "https://i.ibb.co/a.png" ∧
  final_img "" "Img" [("Img", CellStr (nbsp +:+ " https://b/c.png "))]
    = "https://b/c.png" ∧
  final_img "" "Img" [("Img", CellFloat "nan")] = "".
Proof.
  split; [|split].
  - pose proof (final_img_priority "https://i.ibb.co/a.png" "Img" [])
      as (Hup & _ & _).
    apply Hup. done.
  - pose proof (final_img_priority "" "Img"
                  [("Img", CellStr (nbsp +:+ " https://b/c.png "))])
      as (_ & Hrow & _).
    apply (Hrow eq_refl ltac:(done)
             (CellStr (nbsp +:+ " https://b/c.png "))); reflexivity.
  - pose proof (final_img_priority "" "Img" [("Img", CellFloat "nan")])
      as (_ & _ & Hnone).
    apply (Hnone eq_refl). right; right.
    exists (CellFloat "nan"). split; reflexivity.
Defined.

(** C7 as stated fails: a value that begins with the scheme [ftp] is not
    used, and of a value with white space around it the stripped text is
    used, not the value. *)
Lemma image_not_chosen_by_scheme :
  ¬ image_by_scheme "" "Img" [("Img", CellStr "ftp://d")] ∧
  ¬ image_by_scheme "" "Img" [("Img", CellStr "https://b/c.png ")].
Proof.
  split; intros (_ & Hused & _).
  - by specialize (Hused eq_refl (CellStr "ftp://d") eq_refl eq_refl).
  - by specialize (Hused eq_refl (CellStr "https://b/c.png ") eq_refl eq_refl).
Qed.

(** ** The send task, step by step *)

Lemma dumps_PStr (fuel : nat) (h : list (dict pyval)) (s : string) :
  dumps fuel h (PStr s) = Some (JStr s).
Proof. by destruct fuel. Qed.

Lemma dumps_PRef (fuel : nat) (h : list (dict pyval)) (l : nat) :
  dumps (S fuel) h (PRef l)
  = (d ← h !! l; JObj <$> mapM (dump_entry (dumps fuel h)) d).
Proof. reflexivity. Qed.

Lemma dump_entries_text (fuel : nat) (h : list (dict pyval)) (d : dict string) :
  mapM (dump_entry (dumps fuel h)) (pstr <$> d) = Some (jstr <$> d).
Proof.
  apply mapM_Some. induction d as [|[k s] d IH]; constructor; [|done].
  unfold dump_entry. simpl. by rewrite dumps_PStr.
Qed.

Lemma dump_entries_set {V W} (f : V → option W) (k : string) (v : V) (w : W)
    (d : dict V) (d' : dict W) :
  f v = Some w →
  mapM (dump_entry f) d = Some d' →
  mapM (dump_entry f) (dict_set k v d) = Some (dict_set k w d').
Proof.
  intros Hv Hd. apply mapM_Some in Hd. apply mapM_Some.
  unfold dump_entry in *.
  induction Hd as [|[k1 v1] [k2 w2] d d' Hx Hd IH]; simpl.
  - constructor; [|constructor]. simpl. by rewrite Hv.
  - simpl in Hx. destruct (f v1) as [w1|] eqn:Hv1; simplify_eq/=.
    destruct (decide (k2 = k)) as [->|Hne].
    + constructor; [|done]. simpl. by rewrite Hv.
    + constructor; [|done]. simpl. by rewrite Hv1.
Qed.

(** The payload of line 237 read through the store: whatever the
    dictionary of parameters holds when the call is made is what is sent. *)
Lemma dumps_payload (fuel : nat) (P : dict pyval) (ps : dict json)
    (number tid : string) (rest : list (dict pyval)) :
  let h := P :: [("number", PStr number)]
             :: [("type", PStr "whatsapp"); ("sender", PStr "919311239211");
                 ("templateId", PStr tid); ("params", PRef 0)]
             :: [("userDetails", PRef 1); ("notification", PRef 2)] :: rest in
  mapM (dump_entry (dumps fuel h)) P = Some ps →
  dumps (S (S (S fuel))) h (PRef 3)
  = Some (JObj [("userDetails", JObj [("number", JStr number)]);
                ("notification",
                 JObj [("type", JStr "whatsapp");
                       ("sender", JStr "919311239211");
                       ("templateId", JStr tid);
                       ("params", JObj ps)])]).
Proof.
  intros h HP. rewrite dumps_PRef.
  change (h !! 3) with (Some [("userDetails", PRef 1); ("notification", PRef 2)]).
  cbn [mbind option_bind mapM]. unfold dump_entry at 1 2. cbn [fst snd].
  rewrite !dumps_PRef.
  change (h !! 1) with (Some [("number", PStr number)]).
  change (h !! 2) with
    (Some [("type", PStr "whatsapp"); ("sender", PStr "919311239211");
           ("templateId", PStr tid); ("params", PRef 0)]).
  cbn [mbind option_bind mapM]. unfold dump_entry at 1 2 3 4 5. cbn [fst snd].
  rewrite !dumps_PStr, dumps_PRef.
  change (h !! 0) with (Some P).
  cbn [mbind option_bind]. rewrite HP. reflexivity.
Qed.

Lemma params_loop_run (cm : dict mapinfo) (row : Series) (p : nat)
    (d : dict string) (h : list (dict pyval)) (w : list request) :
  h !! p = Some (pstr <$> d) →
  fill_params cm row p {| heap := h; wire := w |}
  = (Return tt,
     {| heap := <[p := pstr <$> params_text cm row d]> h; wire := w |}).
Proof.
  unfold fill_params.
  revert d h. induction cm as [|[field m] cm IH]; intros d h Hp.
  - simpl. unfold ret. by rewrite list_insert_id.
  - cbn [for_each params_text foldl]. unfold bind at 1.
    destruct (decide (field = "mobile_no")) as [->|Hne].
    + unfold ret at 1. by apply IH.
    + unfold setitem at 1. cbn [heap wire].
      rewrite (IH (dict_set field (resolve row m) d)).
      * do 2 f_equal. apply list_eq. intros j.
        destruct (decide (j = p)) as [->|Hj].
        -- rewrite !list_lookup_insert_eq; [done|..].
           ++ by eapply lookup_lt_Some.
           ++ rewrite length_alter. by eapply lookup_lt_Some.
        -- rewrite !list_lookup_insert_ne by done.
           by rewrite list_lookup_alter_ne.
      * rewrite list_lookup_alter_eq, Hp. simpl. f_equal.
        apply (dict_set_fmap PStr).
Qed.

(** After the request is on the wire: case analysis on what the network
    does and on the decoded body. *)
Ltac classify_reply net :=
  cbn [fst app];
  match goal with
  | |- context [net ?r] => destruct (net r) as [[code [msg|j]]|msg|]
  end;
  [reflexivity| |reflexivity..];
  unfold response_json, answer, json_get, raise, ret; cbn [body status_code];
  match goal with
  | j : json |- _ => destruct j; try reflexivity; by case_bool_decide
  end.

Lemma run_task_mapped (E : env) (net : request → net_event) (i : nat)
    (row : Series) (mobile : mapinfo) :
  dict_get "mobile_no" (column_mapping E) = Some mobile →
  run_task E net i row
  = (answer i (net (sent_request E row mobile)), [sent_request E row mobile]).
Proof.
  intros Hmob. unfold run_task, send_message, try_except.
  unfold bind at 1. unfold new_dict at 1. cbn [heap wire init length app].
  unfold bind at 1. rewrite (params_loop_run _ _ 0 []) by done.
  cbn [list_insert insert app length].
  unfold getitem. rewrite Hmob.
  unfold sent_request, payload_json.
  destruct (truthy (final_img (image_url E) (image_col_map E) row)) eqn:Himg.
  - cbv [bind ret new_dict setitem]. cbn [heap wire app length alter list_alter].
    unfold requests_post. cbn [heap wire length].
    erewrite (dumps_payload 3); cycle 1.
    { apply dump_entries_set; [reflexivity|apply dump_entries_text]. }
    classify_reply net.
  - cbv [bind ret new_dict]. cbn [heap wire app length].
    unfold requests_post. cbn [heap wire length].
    erewrite (dumps_payload 2); [|apply dump_entries_text].
    classify_reply net.
Qed.

Lemma run_task_unmapped (E : env) (net : request → net_event) (i : nat)
    (row : Series) :
  dict_get "mobile_no" (column_mapping E) = None →
  run_task E net i row = (Return (i, "Error", JStr "'mobile_no'"), []).
Proof.
  intros Hmob. unfold run_task, send_message, try_except.
  unfold bind at 1. unfold new_dict at 1. cbn [heap wire init length app].
  unfold bind at 1. rewrite (params_loop_run _ _ 0 []) by done.
  unfold getitem. rewrite Hmob. reflexivity.
Qed.

Lemma answer_returns (i : nat) (ev : net_event) :
  ev ≠ Silent →
  ∃ stat msg, answer i ev = Return (i, stat, msg) ∧
              (stat = "Sent" ∨ stat = "Failed" ∨ stat = "Error").
Proof.
  intros Hev. destruct ev as [[code [msg|j]]|msg|]; simpl; [by eauto 6| |by eauto 6|done].
  destruct j; try by eauto 6. case_bool_decide; by eauto 6.
Qed.

(** The wire of a task holds its one request, or nothing when the mobile
    number has no mapping. *)
Lemma run_task_wire (E : env) (net : request → net_event) (i : nat)
    (row : Series) (req : request) :
  (run_task E net i row).2 = [req] →
  ∃ mobile, dict_get "mobile_no" (column_mapping E) = Some mobile ∧
            req = sent_request E row mobile ∧
            (run_task E net i row).1 = answer i (net req).
Proof.
  destruct (dict_get "mobile_no" (column_mapping E)) as [mobile|] eqn:Hmob.
  - rewrite (run_task_mapped _ _ _ _ mobile) by done. simpl.
    intros [= <-]. by exists mobile.
  - by rewrite run_task_unmapped.
Qed.


(** A failure of one row is data, not an exception of the batch. *)
Lemma run_task_never_raises (E : env) (net : request → net_event) (i : nat)
    (row : Series) (e : exn) :
  (run_task E net i row).1 ≠ Raise e.
Proof.
  destruct (dict_get "mobile_no" (column_mapping E)) as [mobile|] eqn:Hmob.
  - rewrite (run_task_mapped _ _ _ _ mobile) by done. simpl.
    destruct (net _) as [[code [msg|j]]|msg|]; simpl; try done.
    destruct j; try done. by case_bool_decide.
  - by rewrite run_task_unmapped.
Qed.

(** ** C5, C10, C9: classification of the outcome *)

(** C5, as the code has it.  A call that is answered with a body that
    decodes to a JSON object gives Sent, with the [message] of the object
    or [Success], when the status is 200 or 202, and Failed, with the
    [message] or [HTTP <status>], when it is any other.  A call that
    raises, an answer whose body does not decode, and an answer whose
    body decodes to anything but an object give Error with the text of
    the exception, whatever the status; so does a mapping without
    [mobile_no], before any call.  A task whose call is answered or raises
    ends in one of the three; a task whose call is never answered does
    not end. *)
Theorem send_message_classification (E : env) (net : request → net_event)
    (i : nat) (row : Series) :
  (∀ req code d,
     (run_task E net i row).2 = [req] →
     net req = Replies (Response code (inr (JObj d))) →
     (code ∈ [200; 202]%Z →
      (run_task E net i row).1
      = Return (i, "Sent", get d "message" (JStr "Success"))) ∧
     (code ∉ [200; 202]%Z →
      (run_task E net i row).1
      = Return (i, "Failed",
                get d "message" (JStr ("HTTP " +:+ str_int code))))) ∧
  (∀ req msg,
     (run_task E net i row).2 = [req] →
     (net req = Raises msg ∨ ∃ code, net req = Replies (Response code (inl msg))) →
     (run_task E net i row).1 = Return (i, "Error", JStr msg)) ∧
  (∀ req code j,
     (run_task E net i row).2 = [req] →
     net req = Replies (Response code (inr j)) →
     (∀ d, j ≠ JObj d) →
     (run_task E net i row).1
     = Return (i, "Error",
               JStr ("'" +:+ type_name j +:+ "' object has no attribute 'get'"))) ∧
  ((run_task E net i row).2 = [] →
   (run_task E net i row).1 = Return (i, "Error", JStr "'mobile_no'")) ∧
  (∀ req, (run_task E net i row).2 = [req] →
     (net req = Silent ↔ (run_task E net i row).1 = Hang) ∧
     (net req ≠ Silent →
      ∃ stat msg, (run_task E net i row).1 = Return (i, stat, msg) ∧
                  (stat = "Sent" ∨ stat = "Failed" ∨ stat = "Error"))) ∧
  ((run_task E net i row).2 = [] ∨ ∃ req, (run_task E net i row).2 = [req]).
Proof.
  split; [|split; [|split; [|split; [|split]]]].
  - intros req code d Hw Hnet.
    apply run_task_wire in Hw as (mobile & _ & _ & ->). rewrite Hnet. simpl.
    split; intros Hc.
    + by rewrite bool_decide_true.
    + by rewrite bool_decide_false.
  - intros req msg Hw Hnet.
    apply run_task_wire in Hw as (mobile & _ & _ & ->).
    by destruct Hnet as [->|[code ->]].
  - intros req code j Hw Hnet Hj.
    apply run_task_wire in Hw as (mobile & _ & _ & ->). rewrite Hnet. simpl.
    destruct j; try done. by destruct (Hj d).
  - destruct (dict_get "mobile_no" (column_mapping E)) as [mobile|] eqn:Hmob.
    + by rewrite (run_task_mapped _ _ _ _ mobile).
    + by rewrite run_task_unmapped.
  - intros req Hw. apply run_task_wire in Hw as (mobile & _ & _ & ->).
    split; [|by apply answer_returns]. split; [by intros ->|].
    intros Hhang. destruct (net req) as [r|msg|] eqn:Hnet; [| |done]; exfalso.
    + destruct (answer_returns i (Replies r)) as (stat & msg & Hr & _); [done|].
      congruence.
    + done.
  - destruct (dict_get "mobile_no" (column_mapping E)) as [mobile|] eqn:Hmob.
    + right. rewrite (run_task_mapped _ _ _ _ mobile) by done. by eexists.
    + left. by rewrite run_task_unmapped.
Qed.

Lemma send_message_classification_witness :
  (run_task sample_env (sample_net 0) 0 sample_row).1
    = Return (0, "Sent", JStr "queued") ∧
  (run_task sample_env (sample_net 2) 2 sample_row).1
    = Return (2, "Failed", JStr "HTTP 400") ∧
  (run_task sample_env (sample_net 1) 1 sample_row).1
    = Return (1, "Error", JStr "Connection refused") ∧
  (run_task sample_env (λ _, Replies (Response 200 (inr (JArr [JInt 1]))))
     0 sample_row).1
    = Return (0, "Error", JStr "'list' object has no attribute 'get'") ∧
  (run_task sample_env (λ _, Silent) 0 sample_row).1 = Hang.
Proof.
  split; [|split; [|split; [|split]]].
  - pose proof (send_message_classification sample_env (sample_net 0) 0
                  sample_row) as (H & _).
    destruct (H (sent_request sample_env sample_row (Column "Phone")) 200%Z
                [("message", JStr "queued")] eq_refl eq_refl) as [Hsent _].
    apply Hsent. left.
  - pose proof (send_message_classification sample_env (sample_net 2) 2
                  sample_row) as (H & _).
    destruct (H (sent_request sample_env sample_row (Column "Phone")) 400%Z
                [] eq_refl eq_refl) as [_ Hfailed].
    apply Hfailed. by apply (bool_decide_eq_false_1 _).
  - pose proof (send_message_classification sample_env (sample_net 1) 1
                  sample_row) as (_ & H & _).
    apply (H (sent_request sample_env sample_row (Column "Phone"))
             "Connection refused" eq_refl). by left.
  - pose proof (send_message_classification sample_env
                  (λ _, Replies (Response 200 (inr (JArr [JInt 1]))))
                  0 sample_row) as (_ & _ & H & _).
    apply (H (sent_request sample_env sample_row (Column "Phone")) 200%Z
             (JArr [JInt 1]) eq_refl eq_refl). done.
  - pose proof (send_message_classification sample_env (λ _, Silent) 0
                  sample_row) as (_ & _ & _ & _ & H & _).
    by apply (H (sent_request sample_env sample_row (Column "Phone")) eq_refl).
Defined.

(** C5 as stated fails: an answer with status 200 whose body is the list
    [[1]] ends in Error, not in Sent, and a task whose call is never
    answered ends in none of the three outcomes. *)
Lemma status_alone_does_not_classify :
  ¬ classified_by_status sample_env
      (λ _, Replies (Response 200 (inr (JArr [JInt 1])))) 0 sample_row ∧
  ¬ classified_by_status sample_env (λ _, Silent) 0 sample_row.
Proof.
  split.
  - intros (_ & Hsent & _).
    destruct (Hsent (sent_request sample_env sample_row (Column "Phone"))
                (Response 200 (inr (JArr [JInt 1]))) eq_refl eq_refl)
      as [msg Hmsg]; [left|done].
  - by intros ((stat & msg & Hret & _) & _).
Qed.

(** C10. The body is decoded before the status is looked at: an answer
    with status 200 or 202 whose body is not JSON ends in Error with the
    text of the decoding error, and a task that ends in Sent had both a
    success status and a body that decoded. *)
Theorem body_decoded_before_status (E : env) (net : request → net_event)
    (i : nat) (row : Series) :
  (∀ req code msg,
     (run_task E net i row).2 = [req] →
     net req = Replies (Response code (inl msg)) →
     code ∈ [200; 202]%Z →
     (run_task E net i row).1 = Return (i, "Error", JStr msg)) ∧
  (∀ m, (run_task E net i row).1 = Return (i, "Sent", m) →
     ∃ req code j,
       (run_task E net i row).2 = [req] ∧
       net req = Replies (Response code (inr j)) ∧ code ∈ [200; 202]%Z).
Proof.
  split.
  - intros req code msg Hw Hnet _.
    apply run_task_wire in Hw as (mobile & _ & _ & ->). by rewrite Hnet.
  - intros m.
    destruct (dict_get "mobile_no" (column_mapping E)) as [mobile|] eqn:Hmob.
    + rewrite (run_task_mapped _ _ _ _ mobile) by done. simpl.
      destruct (net (sent_request E row mobile)) as [[code [msg|j]]|msg|] eqn:Hnet;
        simpl; try done.
      intros Hsent. exists (sent_request E row mobile), code, j.
      rewrite Hnet. split; [done|]. split; [done|].
      destruct j; try done. by case_bool_decide.
    + by rewrite run_task_unmapped.
Qed.

Lemma body_decoded_before_status_witness :
  (run_task sample_env
     (λ _, Replies (Response 200 (inl "Expecting value: line 1 column 1 (char 0)")))
     0 sample_row).1
  = Return (0, "Error", JStr "Expecting value: line 1 column 1 (char 0)").
Proof.
  pose proof (body_decoded_before_status sample_env
    (λ _, Replies (Response 200 (inl "Expecting value: line 1 column 1 (char 0)")))
    0 sample_row) as [H _].
  apply (H (sent_request sample_env sample_row (Column "Phone")) 200%Z
           _ eq_refl eq_refl). left.
Defined.

(** C9, as the code has it.  The send call carries no timeout.  A call
    that the API never answers keeps its worker waiting without end, and
    no result is produced for its row; that is the only way in which a
    task fails to end.  A call that raises, as it does when the transport
    itself gives up, ends in an Error result with the text of the
    exception. *)
Theorem send_call_without_timeout (E : env) (net : request → net_event)
    (i : nat) (row : Series) (req : request) :
  (run_task E net i row).2 = [req] →
  req_timeout req = None ∧
  (net req = Silent ↔ (run_task E net i row).1 = Hang) ∧
  (∀ msg, net req = Raises msg →
          (run_task E net i row).1 = Return (i, "Error", JStr msg)).
Proof.
  intros Hw. apply run_task_wire in Hw as (mobile & _ & -> & ->).
  split; [done|]. split.
  - split; [by intros ->|]. intros Hhang.
    destruct (net _) as [r|msg|] eqn:Hnet; [| |done]; exfalso.
    + destruct (answer_returns i (Replies r)) as (stat & msg & Hr & _); [done|].
      congruence.
    + done.
  - by intros msg ->.
Qed.

Lemma send_call_without_timeout_witness :
  (run_task sample_env (λ _, Silent) 0 sample_row).1 = Hang ∧
  (run_task sample_env (λ _, Raises "Read timed out.") 0 sample_row).1
    = Return (0, "Error", JStr "Read timed out.").
Proof.
  split.
  - pose proof (send_call_without_timeout sample_env (λ _, Silent) 0 sample_row
                  (sent_request sample_env sample_row (Column "Phone")) eq_refl)
      as (_ & H & _).
    by apply H.
  - pose proof (send_call_without_timeout sample_env
                  (λ _, Raises "Read timed out.") 0 sample_row
                  (sent_request sample_env sample_row (Column "Phone")) eq_refl)
      as (_ & _ & H).
    by apply H.
Defined.

(** C9 as stated fails: the request of the sample task has no timeout and
    a silent network leaves the task waiting instead of ending in Error. *)
Lemma send_call_not_bounded :
  ¬ bounded_by_timeout sample_env (λ _, Silent) 0 sample_row.
Proof.
  intros H.
  destruct (H (sent_request sample_env sample_row (Column "Phone")))
    as [[t Ht] _]; [left|done].
Qed.

(** ** C2 and C3: the payload on the wire *)

Lemma params_text_skips_mobile (cm : dict mapinfo) (row : Series)
    (d : dict string) :
  dict_get "mobile_no" (params_text cm row d) = dict_get "mobile_no" d.
Proof.
  revert d. induction cm as [|[field m] cm IH]; intros d; [done|].
  cbn [params_text foldl]. destruct (decide (field = "mobile_no")) as [->|Hne].
  - apply IH.
  - unfold params_text in IH. rewrite IH. by apply dict_get_set_ne.
Qed.

(** C2, as the code has it.  When the image of a task is not empty, the
    payload it posts carries the media object as the entry [media] of
    [params]; [notification] itself has no [media] member; every other
    entry of [params] is text, and [params] has no [mobile_no]. *)
Theorem media_inside_params (E : env) (net : request → net_event) (i : nat)
    (row : Series) (req : request) :
  (run_task E net i row).2 = [req] →
  final_img (image_url E) (image_col_map E) row ≠ "" →
  ∃ notification ps,
    member "notification" (req_json req) = Some notification ∧
    member "media" notification = None ∧
    member "params" notification = Some (JObj ps) ∧
    dict_get "media" ps
      = Some (JObj [("mediaLink",
                     JStr (final_img (image_url E) (image_col_map E) row))]) ∧
    (∀ k v, k ≠ "media" → dict_get k ps = Some v → is_text v) ∧
    dict_get "mobile_no" ps = None.
Proof.
  intros Hw Himg. apply run_task_wire in Hw as (mobile & _ & -> & _).
  unfold sent_request, payload_json. cbn [req_json].
  unfold truthy. rewrite bool_decide_true by done.
  eexists _, _. split; [reflexivity|]. split; [reflexivity|].
  split; [reflexivity|]. split; [apply dict_get_set_eq|]. split.
  - intros k v Hk. rewrite dict_get_set_ne by done.
    unfold jstr. rewrite dict_get_fmap.
    destruct (dict_get k _) as [s|]; [|done]. intros [= <-]. by exists s.
  - rewrite dict_get_set_ne by done. unfold jstr.
    by rewrite dict_get_fmap, params_text_skips_mobile.
Qed.

Lemma media_inside_params_witness :
  ∃ notification ps,
    member "notification"
      (req_json (sent_request sample_env_image sample_row (Column "Phone")))
      = Some notification ∧
    member "media" notification = None ∧
    member "params" notification = Some (JObj ps) ∧
    dict_get "media" ps
      = Some (JObj [("mediaLink", JStr "https://i.ibb.co/a.png")]).
Proof.
  destruct (media_inside_params sample_env_image (sample_net 0) 0 sample_row
              (sent_request sample_env_image sample_row (Column "Phone"))
              eq_refl ltac:(done))
    as (notification & ps & Hn & Hm & Hp & Hmedia & _).
  by exists notification, ps.
Defined.

(** C2 as stated fails on the sample task with an uploaded image: the
    posted [notification] has no [media] member. *)
Lemma media_not_beside_params :
  (run_task sample_env_image (sample_net 0) 0 sample_row).2
    = [sent_request sample_env_image sample_row (Column "Phone")] ∧
  final_img (image_url sample_env_image) (image_col_map sample_env_image)
    sample_row = "https://i.ibb.co/a.png" ∧
  ¬ media_beside_params
      (sent_request sample_env_image sample_row (Column "Phone"))
      "https://i.ibb.co/a.png".
Proof.
  split; [reflexivity|]. split; [reflexivity|].
  intros (notification & ps & Hn & Hm & _).
  vm_compute in Hn. injection Hn as <-. by vm_compute in Hm.
Qed.

(** The recipient number of every posted payload is the row's value in
    the column named by the [value] of the [mobile_no] mapping, whatever
    the [type] of that mapping. *)
Lemma number_reads_column (E : env) (net : request → net_event) (i : nat)
    (row : Series) (req : request) :
  (run_task E net i row).2 = [req] →
  ∃ mobile,
    dict_get "mobile_no" (column_mapping E) = Some mobile ∧
    member "userDetails" (req_json req) ≫= member "number"
    = Some (JStr (str (get row (mvalue mobile) (CellStr "")))).
Proof.
  intros Hw. apply run_task_wire in Hw as (mobile & Hmob & -> & _).
  by exists mobile.
Qed.

(** C3 fails on the sample campaign with the mobile number given as the
    custom value [919876543210]: the resolver yields that value for the
    mapping, but the [number] of the posted payload is the empty string. *)
Theorem literal_mobile_number_lost :
  dict_get "mobile_no" (column_mapping sample_env_literal)
    = Some (Literal "919876543210") ∧
  resolve sample_row (Literal "919876543210") = "919876543210" ∧
  ∃ req,
    (run_task sample_env_literal (sample_net 0) 0 sample_row).2 = [req] ∧
    member "userDetails" (req_json req) ≫= member "number" = Some (JStr "").
Proof.
  split; [reflexivity|]. split; [reflexivity|].
  eexists. split; reflexivity.
Qed.

(** ** The report keeps the rows and their results together *)

Lemma set_column_new {V} (name : string) (vals : list V) (df : Frame V) :
  name ∉ columns df →
  set_column name vals df
  = {| columns := columns df ++ [name];
       data := zip_with (λ r v, r ++ [v]) (data df) vals |}.
Proof.
  intros Hnew. unfold set_column.
  assert (list_find (λ c, c = name) (columns df) = None) as ->; [|done].
  apply list_find_None, list.Forall_forall. by intros c Hc ->.
Qed.

Lemma set_fill_values (ws : worksheet) (r c : nat) (colour : string) :
  values (set_fill ws r c colour) = values ws.
Proof.
  unfold values, set_fill.
  rewrite (list_fmap_alter _ _ id); [by rewrite list_alter_id|].
  apply list.Forall_forall. intros row _. simpl.
  rewrite (list_fmap_alter _ _ id); [by rewrite list_alter_id|].
  by apply list.Forall_forall.
Qed.

Lemma foldl_invariant {A B} (P : A → Prop) (f : A → B → A) (l : list B)
    (a : A) :
  P a → (∀ a b, P a → P (f a b)) → P (foldl f a l).
Proof.
  intros Ha Hf. revert a Ha. induction l as [|b l IH]; intros a Ha; [done|].
  simpl. by apply IH, Hf.
Qed.

Lemma highlight_values (ws : worksheet) : values (highlight ws) = values ws.
Proof.
  unfold highlight.
  apply (foldl_invariant (λ w, values w = values ws)); [done|].
  intros w row_idx Hw. destruct (failed_or_error _); [|done].
  apply (foldl_invariant (λ w', values w' = values ws)); [done|].
  intros w' col_idx Hw'. by rewrite set_fill_values.
Qed.

Lemma sheet_values (df : Frame pyobj) :
  values (sheet df)
  = (excel_value ∘ Scalar ∘ CellStr <$> columns df)
    :: ((λ r : list pyobj, excel_value <$> r) <$> data df).
Proof.
  unfold values, sheet. cbn [fmap list_fmap]. f_equal.
  - rewrite <-list_fmap_compose. by apply list_fmap_ext.
  - rewrite <-list_fmap_compose. apply list_fmap_ext. intros _ r _. simpl.
    rewrite <-list_fmap_compose. by apply list_fmap_ext.
Qed.

(** The writer saves the sheet of a table none of whose texts it refuses,
    and raises on any other. *)
Lemma to_excel_writable (df : Frame pyobj) :
  writable df = true → to_excel df = Return (sheet df).
Proof.
  unfold writable, to_excel. intros Hw.
  destruct (list_find _ _) as [[k s]|] eqn:Hfind; [|done].
  apply list_find_Some in Hfind as (Hk & Hs & _).
  rewrite forallb_forall in Hw. apply list_elem_of_lookup_2 in Hk.
  apply list_elem_of_In, Hw in Hk. by rewrite Hs in Hk.
Qed.

Lemma to_excel_refused (df : Frame pyobj) :
  writable df = false →
  ∃ s, s ∈ texts_written df ∧ has_illegal (kept s) = true ∧
       to_excel df = Raise (IllegalCharacterError (kept s)).
Proof.
  unfold writable, to_excel. intros Hw.
  destruct (list_find _ _) as [[k s]|] eqn:Hfind.
  - apply list_find_Some in Hfind as (Hk & Hs & _). exists s.
    split; [by eapply list_elem_of_lookup_2|done].
  - apply list_find_None in Hfind.
    assert (forallb (λ s, negb (has_illegal (kept s))) (texts_written df)
            = true) as Hall; [|congruence].
    apply forallb_forall. intros s Hs%list_elem_of_In.
    rewrite list.Forall_forall in Hfind. specialize (Hfind s Hs).
    by destruct (has_illegal (kept s)).
Qed.


Lemma infer_lookup (values : list json) (i : nat) :
  infer values !! i = stored_message values <$> values !! i.
Proof.
  unfold infer, stored_message.
  destruct (stored_as_floats _); by rewrite list_lookup_fmap.
Qed.

(** Any list with a text in it is stored as it is. *)
Lemma stored_text (values : list json) (s : string) :
  JStr s ∈ values → stored_as_floats values = false.
Proof.
  intros Hin. unfold stored_as_floats.
  assert (forallb number_or_none values = false) as ->; [|done].
  apply not_true_is_false. rewrite forallb_forall. intros Hall.
  by specialize (Hall _ (proj1 (list_elem_of_In _ _) Hin)).
Qed.

Lemma with_results_new (df : DataFrame) (status : list string)
    (texts : list json) :
  "Status" ∉ columns df → "API Response" ∉ columns df →
  columns (with_results df status texts)
    = columns df ++ ["Status"; "API Response"] ∧
  ∀ i, data (with_results df status texts) !! i
       = (vals ← data df !! i; stat ← status !! i; msg ← texts !! i;
          Some ((Scalar <$> vals)
                ++ [Scalar (CellStr stat); stored_message texts msg])).
Proof.
  intros Hs Ha. unfold with_results.
  rewrite (set_column_new "Status") by done.
  rewrite set_column_new; cbn [columns data].
  - split; [by rewrite <-app_assoc|]. intros i.
    rewrite !lookup_zip_with, !list_lookup_fmap, infer_lookup.
    destruct (data df !! i) as [vals|]; [|done].
    destruct (status !! i) as [stat|]; [|done]. simpl.
    destruct (texts !! i) as [msg|]; [|done]. simpl. by rewrite <-app_assoc.
  - intros [Hin|Hin%list_elem_of_singleton]%elem_of_app; done.
Qed.



(** Row [i] of the saved sheet is row [i] of the table followed by the
    status and the message at position [i] of the result lists, each as
    the sheet holds it. *)
Lemma report_rows (df : DataFrame) (status : list string) (texts : list json) :
  "Status" ∉ columns df → "API Response" ∉ columns df →
  writable (with_results df status texts) = true →
  ∃ ws, build_report df status texts = Return ws ∧
    ∀ i vals stat msg,
      data df !! i = Some vals → status !! i = Some stat →
      texts !! i = Some msg →
      values ws !! S i
      = Some ((excel_value ∘ Scalar <$> vals)
              ++ [excel_value (Scalar (CellStr stat));
                  excel_value (stored_message texts msg)]).
Proof.
  intros Hs Ha Hw. unfold build_report. rewrite to_excel_writable by done.
  eexists. split; [done|]. intros i vals stat msg Hvals Hstat Hmsg.
  rewrite highlight_values, sheet_values.
  match goal with
  | |- (_ :: ?l) !! _ = _ => change (l !! i = Some
      ((excel_value ∘ Scalar <$> vals)
       ++ [excel_value (Scalar (CellStr stat));
           excel_value (stored_message texts msg)]))
  end.
  rewrite list_lookup_fmap.
  destruct (with_results_new df status texts Hs Ha) as [_ ->].
  rewrite Hvals, Hstat, Hmsg. simpl. f_equal.
  by rewrite fmap_app, <-list_fmap_compose.
Qed.

(** ** C1: the merge restores row order *)








(** ** Every row of a mapped batch goes on the wire *)


(** ** C8: what the highlight loop does on any table *)

Lemma fill_prefix_step (k : nat) (r : list ws_cell) :
  alter fill_red k ((fill_red <$> take k r) ++ drop k r)
  = (fill_red <$> take (S k) r) ++ drop (S k) r.
Proof.
  revert k. induction r as [|c r IH]; intros [|k]; try done.
  cbn [take drop fmap list_fmap app alter list_alter]. f_equal. apply IH.
Qed.

(** The inner loop over the columns fills the first [k] cells of the row. *)
Lemma fill_columns (ws : worksheet) (row_idx k : nat) :
  foldl (λ ws col_idx, set_fill ws row_idx col_idx red_fill) ws (seq 1 k)
  = alter (λ r, (fill_red <$> take k r) ++ drop k r) (row_idx - 1) ws.
Proof.
  induction k as [|k IH].
  - simpl. symmetry. by apply list_alter_id.
  - rewrite seq_S, foldl_app, IH. cbn [foldl]. unfold set_fill.
    rewrite list_alter_alter_eq. apply list_alter_ext; [|done].
    intros r _. simpl. rewrite Nat.sub_0_r. apply fill_prefix_step.
Qed.

Lemma max_column_rect (m : nat) (ws : worksheet) :
  ws ≠ [] → Forall (λ r, length r = m) ws → max_column ws = m.
Proof.
  unfold max_column. intros Hne Hrect.
  induction Hrect as [|r ws Hr Hrect IH]; [done|].
  cbn [fmap list_fmap foldr]. destruct ws as [|r' ws]; [simpl; lia|].
  rewrite IH by done. lia.
Qed.

(** The loop over the rows, started below the rows [pre] already passed. *)
Lemma highlight_rows (m : nat) (pre post : worksheet) :
  pre ≠ [] →
  Forall (λ r, length r = m) pre → Forall (λ r, length r = m) post →
  foldl (λ ws row_idx,
           if failed_or_error (cell_value ws row_idx 4)
           then foldl (λ ws col_idx, set_fill ws row_idx col_idx red_fill)
                      ws (seq 1 (max_column ws))
           else ws)
        (pre ++ post) (seq (S (length pre)) (length post))
  = pre ++ (highlight_row <$> post).
Proof.
  intros Hne Hpre Hpost. revert pre Hne Hpre.
  induction Hpost as [|r post Hr Hpost IH]; intros pre Hne Hpre; [done|].
  cbn [length seq foldl fmap list_fmap].
  assert (cell_value (pre ++ r :: post) (S (length pre)) 4
          = default XlNone ((value <$> r) !! 3)) as ->.
  { unfold cell_value. simpl. rewrite Nat.sub_0_r, list_lookup_middle by done.
    simpl. rewrite list_lookup_fmap. by destruct (r !! 3). }
  assert (highlight_row r
          = if reads_failed (value <$> r) then fill_red <$> r else r) as Hrow
    by done.
  unfold reads_failed in Hrow.
  assert (∀ r', length r' = m →
            foldl
              (λ ws row_idx,
                 if failed_or_error (cell_value ws row_idx 4)
                 then foldl (λ ws col_idx, set_fill ws row_idx col_idx red_fill)
                            ws (seq 1 (max_column ws))
                 else ws)
              (pre ++ r' :: post) (seq (S (S (length pre))) (length post))
            = pre ++ r' :: (highlight_row <$> post)) as Hnext.
  { intros r' Hr'. rewrite cons_middle, app_assoc.
    replace (S (S (length pre))) with (S (length (pre ++ [r'])))
      by (rewrite length_app; simpl; lia).
    rewrite IH.
    - by rewrite <-app_assoc.
    - by destruct pre.
    - apply Forall_app. split; [done|]. by constructor. }
  destruct (failed_or_error _).
  - rewrite Hrow, fill_columns.
    rewrite (max_column_rect m);
      [|by destruct pre|apply Forall_app; split; [done|by constructor]].
    simpl. rewrite Nat.sub_0_r.
    replace (length pre) with (length pre + 0) at 1 by lia.
    rewrite alter_app_r. cbn [alter list_alter].
    rewrite take_ge, drop_ge, app_nil_r by lia.
    apply Hnext. by rewrite length_fmap.
  - rewrite Hrow. by apply Hnext.
Qed.

(** On the sheet of a rectangular table, each data row ends up filled
    exactly when the text of its fourth value is [failed] or [error]. *)
Lemma highlight_follows_fourth_column (df : Frame pyobj) :
  columns df ≠ [] →
  Forall (λ r, length r = length (columns df)) (data df) →
  markings (highlight (sheet df))
  = (λ r : list pyobj, reads_failed (excel_value <$> r)) <$> data df.
Proof.
  intros Hcols Hrect. unfold highlight.
  set (plain := λ v : xl, {| value := v; fill := None |}).
  set (header := plain ∘ excel_value ∘ Scalar ∘ CellStr <$> columns df).
  set (rows := (λ r : list pyobj, plain ∘ excel_value <$> r) <$> data df).
  assert (sheet df = [header] ++ rows) as -> by done.
  assert (max_row ([header] ++ rows) - 1 = length rows) as ->
    by (unfold max_row; simpl; lia).
  change (seq 2 (length rows)) with (seq (S (length [header])) (length rows)).
  rewrite (highlight_rows (length (columns df)) [header] rows).
  - unfold markings. simpl. rewrite drop_0. unfold rows.
    rewrite <-!list_fmap_compose. apply list_fmap_ext.
    intros i r Hi. simpl. unfold highlight_row.
    rewrite <-list_fmap_compose.
    assert ((value ∘ (plain ∘ excel_value)) <$> r = excel_value <$> r) as ->
      by by apply list_fmap_ext.
    destruct (reads_failed (excel_value <$> r)).
    + rewrite <-list_fmap_compose. unfold marked.
      clear Hi. induction r as [|v r IH]; [done|]. simpl. exact IH.
    + apply (Forall_lookup_1 _ _ _ _ Hrect) in Hi.
      destruct r as [|v r]; [|done]. by destruct (columns df).
  - done.
  - constructor; [|done]. unfold header. by rewrite length_fmap.
  - unfold rows. apply Forall_fmap. eapply list.Forall_impl; [exact Hrect|].
    intros r Hr. simpl. by rewrite length_fmap.
Qed.

Lemma take_chars_short (n : nat) (s : string) :
  take_chars n s = s ∨ (n ≤ String.length (take_chars n s))%nat.
Proof.
  revert n. induction s as [|c r IH]; intros n; [by left|].
  cbn [take_chars]. destruct (continuation c).
  - destruct (IH n) as [->|Hn]; [by left|right]. simpl. lia.
  - destruct n as [|n]; [right; simpl; lia|].
    destruct (IH n) as [->|Hn]; [by left|right]. simpl. lia.
Qed.

Lemma take_chars_length (n : nat) (s : string) :
  (String.length (take_chars n s) ≤ String.length s)%nat.
Proof.
  revert n. induction s as [|c r IH]; intros n; [done|].
  cbn [take_chars]. destruct (continuation c).
  - specialize (IH n). simpl. lia.
  - destruct n as [|n]; [simpl; lia|]. specialize (IH n). simpl. lia.
Qed.

Lemma lower_length (s : string) : String.length (lower s) = String.length s.
Proof. induction s as [|c r IH]; [done|]. simpl. by rewrite IH. Qed.

(** A text that the sheet cuts is too long to be one of the two words. *)
Lemma long_text_not_failed (s : string) :
  (max_text ≤ String.length s)%nat → lower s ∉ ["failed"; "error"].
Proof.
  intros Hlen Hin. rewrite <-lower_length in Hlen.
  assert ((6 <? max_text)%nat = true) as Hmax%Nat.ltb_lt
    by (vm_compute; reflexivity).
  apply elem_of_cons in Hin as [Heq|Hin%list_elem_of_singleton].
  - rewrite Heq in Hlen. simpl in Hlen. lia.
  - rewrite Hin in Hlen. simpl in Hlen. lia.
Qed.

(** The status written in a cell is read back by the loop as it was. *)
Lemma status_reads (stat : string) :
  failed_or_error (excel_value (Scalar (CellStr stat)))
  = bool_decide (lower stat ∈ ["failed"; "error"]).
Proof.
  unfold excel_value. cbn [written_text isna].
  destruct (decide (stat = "")) as [->|Hne]; [done|].
  unfold failed_or_error. cbn [xl_text]. unfold kept.
  destruct (take_chars_short max_text stat) as [->|Hlong]; [done|].
  rewrite !bool_decide_false; [done| |].
  - apply long_text_not_failed.
    pose proof (take_chars_length max_text stat). lia.
  - by apply long_text_not_failed.
Qed.

(** With exactly three columns in the table, column D is the status: the
    marked rows are those whose status is Failed or Error. *)
Lemma highlight_three_columns (df : DataFrame) (status : list string)
    (texts : list json) :
  length (columns df) = 3 →
  "Status" ∉ columns df → "API Response" ∉ columns df →
  Forall (λ r, length r = 3) (data df) →
  length status = len df → length texts = len df →
  writable (with_results df status texts) = true →
  ∃ ws, build_report df status texts = Return ws ∧
        markings ws
        = (λ stat, bool_decide (lower stat ∈ ["failed"; "error"])) <$> status.
Proof.
  intros Hcols Hs Ha Hrect Hls Hlt Hw. unfold build_report.
  rewrite to_excel_writable by done. eexists. split; [done|].
  destruct (with_results_new df status texts Hs Ha) as [Hc Hd].
  assert (∀ i r, data (with_results df status texts) !! i = Some r →
            ∃ vals stat msg,
              data df !! i = Some vals ∧ status !! i = Some stat ∧
              r = (Scalar <$> vals)
                  ++ [Scalar (CellStr stat); stored_message texts msg])
    as Hrow.
  { intros i r. rewrite Hd. intros Hr.
    destruct (data df !! i) as [vals|]; [|done].
    destruct (status !! i) as [stat|]; [|done]. simpl in Hr.
    destruct (texts !! i) as [msg|]; [|done]. simpl in Hr.
    injection Hr as <-. by exists vals, stat, msg. }
  rewrite highlight_follows_fourth_column.
  - apply list_eq. intros i. rewrite !list_lookup_fmap, Hd.
    destruct (status !! i) as [stat|] eqn:Hstat.
    + destruct (lookup_lt_is_Some_2 (data df) i) as [vals Hvals].
      { apply lookup_lt_Some in Hstat. unfold len in Hls. lia. }
      destruct (lookup_lt_is_Some_2 texts i) as [msg Hmsg].
      { apply lookup_lt_Some in Hstat. lia. }
      rewrite Hvals, Hmsg. simpl. f_equal. unfold reads_failed.
      apply (Forall_lookup_1 _ _ _ _ Hrect) in Hvals.
      rewrite list_lookup_fmap, lookup_app_r, length_fmap, Hvals by
        (rewrite length_fmap; lia).
      simpl. apply status_reads.
    + destruct (data df !! i); [|done]. done.
  - rewrite Hc. by destruct (columns df).
  - apply Forall_lookup. intros i r Hr.
    destruct (Hrow i r Hr) as (vals & stat & msg & Hvals & _ & ->).
    apply (Forall_lookup_1 _ _ _ _ Hrect) in Hvals.
    rewrite Hc, !length_app, length_fmap, Hvals, Hcols. done.
Qed.

(** C8 fails when the table does not have exactly three columns, since
    the loop reads column D.  With the mobile number as the only column the
    Failed and Error rows stay unmarked; with four columns the marking
    follows the text of the fourth column and not the status; with three
    columns the Failed and Error rows are the marked ones. *)
Theorem highlight_reads_column_D :
  (∃ ws, build_report one_column_df sample_status sample_texts = Return ws ∧
         markings ws = [false; false; false]) ∧
  (∃ ws, build_report four_column_df sample_status sample_texts = Return ws ∧
         markings ws = [true; false; false]) ∧
  (∃ ws, build_report sample_df sample_status sample_texts = Return ws ∧
         markings ws = [false; true; true]).
Proof. repeat split; eexists; split; vm_compute; reflexivity. Qed.

(** ** The scan for placeholders needs no more fuel than the text is long *)

Lemma until_close_shorter (s g t : string) :
  until_close s = Some (g, t) → (String.length t + 2 ≤ String.length s)%nat.
Proof.
  revert g t. induction s as [|c r IH]; intros g t; [done|].
  cbn [until_close]. destruct r as [|c' r']; [done|].
  destruct (decide (c = "}"%char ∧ c' = "}"%char)).
  { intros [= <- <-]. simpl. lia. }
  destruct (decide (c = newline)); [done|].
  destruct (until_close (String c' r')) as [[g' t']|] eqn:Hr; [|done].
  simpl. intros [= <- <-]. specialize (IH g' t' eq_refl). simpl in *. lia.
Qed.

Lemma match_here_shorter (s g t : string) :
  match_here s = Some (g, t) → (String.length t + 4 ≤ String.length s)%nat.
Proof.
  destruct s as [|c [|c' r]]; try done. simpl.
  destruct (decide _); [|done].
  intros Hr%until_close_shorter. lia.
Qed.

Lemma findall_fuel (fuel1 fuel2 : nat) (s : string) :
  (String.length s ≤ fuel1)%nat → (String.length s ≤ fuel2)%nat →
  findall fuel1 s = findall fuel2 s.
Proof.
  revert fuel2 s. induction fuel1 as [|fuel1 IH]; intros fuel2 s H1 H2.
  - destruct s; [by destruct fuel2|simpl in H1; lia].
  - destruct s as [|c r]; [by destruct fuel2|].
    destruct fuel2 as [|fuel2]; [simpl in H2; lia|].
    cbn [findall]. simpl in H1, H2.
    destruct (match_here (String c r)) as [[g t]|] eqn:Hm.
    + apply match_here_shorter in Hm. simpl in Hm.
      f_equal. apply IH; lia.
    + apply IH; lia.
Qed.

(** ** More on the batch: what goes on the wire, and what never happens *)

Lemma submit_all_lookup (E : env) (net : nat → request → net_event)
    (df : DataFrame) (k : nat) (vals : list cell) :
  data df !! k = Some vals →
  submit_all E net df !! k
  = Some (run_task E (net k) k (labelled df vals)).
Proof.
  intros Hk. unfold submit_all, iterrows.
  by rewrite list_lookup_fmap, list_lookup_imap, Hk.
Qed.

Lemma submit_all_length (E : env) (net : nat → request → net_event)
    (df : DataFrame) :
  length (submit_all E net df) = len df.
Proof. unfold submit_all, iterrows, len. by rewrite length_fmap, length_imap. Qed.

(** A task returns a result tagged with its own index, or never returns. *)
Lemma run_task_outcome (E : env) (net : request → net_event) (i : nat)
    (row : Series) :
  (run_task E net i row).1 = Hang ∨
  ∃ stat msg, (run_task E net i row).1 = Return (i, stat, msg).
Proof.
  destruct (dict_get "mobile_no" (column_mapping E)) as [mobile|] eqn:Hmob.
  - rewrite (run_task_mapped _ _ _ _ mobile) by done. simpl.
    destruct (net _) as [[code [msg|j]]|msg|]; simpl; eauto.
    destruct j; eauto. case_bool_decide; eauto.
  - rewrite run_task_unmapped by done. simpl. eauto.
Qed.

Lemma network_calls_rows (E : env) (net : nat → request → net_event)
    (df : DataFrame) (mobile : mapinfo) :
  dict_get "mobile_no" (column_mapping E) = Some mobile →
  network_calls E net df
  = (λ vals, sent_request E (labelled df vals) mobile) <$> data df.
Proof.
  intros Hmob. unfold network_calls, submit_all, iterrows.
  change (λ (i : nat) (vals : list cell), (i, labelled df vals))
    with (λ (i : nat) (vals : list cell), (id i, labelled df vals)).
  generalize (@id nat). induction (data df) as [|vals l IH]; intros g; [done|].
  cbn [imap fmap list_fmap mjoin list_join].
  rewrite (run_task_mapped _ _ _ _ mobile) by done. simpl. f_equal.
  apply (IH (g ∘ S)).
Qed.

(** Whatever the network answers, the batch makes exactly one send attempt
    for every row, in row order: the call at position [i] is the request
    of the task of row [i], sent to the configured address with the
    configured headers.  Nothing is retried and nothing is skipped. *)
Theorem one_request_per_row (E : env) (net : nat → request → net_event)
    (df : DataFrame) (mobile : mapinfo) :
  dict_get "mobile_no" (column_mapping E) = Some mobile →
  length (network_calls E net df) = len df ∧
  ∀ i vals, data df !! i = Some vals →
    ∃ req,
      network_calls E net df !! i = Some req ∧
      (run_task E (net i) i (labelled df vals)).2 = [req] ∧
      req_url req = url E ∧ req_headers req = headers E.
Proof.
  intros Hmob. rewrite (network_calls_rows _ _ _ mobile) by done. split.
  - by rewrite length_fmap.
  - intros i vals Hvals. eexists. rewrite list_lookup_fmap, Hvals.
    split; [done|]. by rewrite (run_task_mapped _ _ _ _ mobile).
Qed.

Lemma one_request_per_row_witness :
  length (network_calls sample_env sample_net sample_df) = 3 ∧
  ∃ req, network_calls sample_env sample_net sample_df !! 1 = Some req ∧
         req_url req = url sample_env.
Proof.
  destruct (one_request_per_row sample_env sample_net sample_df
              (Column "Phone") eq_refl) as [Hlen Hrows].
  split; [exact Hlen|].
  destruct (Hrows 1 [CellInt 919812345602; CellStr "Bob"; CellFloat "nan"]
              eq_refl) as (req & Hreq & _ & Hurl & _).
  by exists req.
Defined.

Lemma dict_get_zip_fmap (f : cell → cell) (labels : list string)
    (vals : list cell) (k : string) :
  dict_get k (zip labels (f <$> vals)) = f <$> dict_get k (zip labels vals).
Proof.
  revert vals. induction labels as [|c labels IH]; intros [|v vals]; try done.
  cbn [fmap list_fmap zip zip_with dict_get].
  destruct (decide (c = k)); [done|]. apply IH.
Qed.

Lemma float_text_small (z : Z) :
  (0 ≤ z < 2 ^ 53)%Z → float_text z = str_int z +:+ ".0".
Proof.
  intros Hz. unfold float_text, nearest_double.
  rewrite Z.abs_eq by lia.
  destruct (z <? 2 ^ 53)%Z eqn:Hlt; [|apply Z.ltb_ge in Hlt; lia].
  rewrite Z.pow_0_r, Z.mul_1_r.
  destruct (z <? 10 ^ 16)%Z eqn:Hten; [|apply Z.ltb_ge in Hten; lia].
  destruct (z <? 0)%Z eqn:Hneg; [apply Z.ltb_lt in Hneg; lia|].
  reflexivity.
Qed.

(** The text of some integers taken as floats, from the exact ones to
    those that are rounded and written with an exponent. *)
Lemma float_text_examples :
  float_text
    <$> [0; 7; -42; 919812345601; 9007199254740991; 9007199254740992;
         9007199254740993; 9999999999999999; 10000000000000000;
         10000000000000002; 123456789012345678; 9223372036854775807;
         -9223372036854775808; 18446744073709551615;
         10000000000000000000]%Z
  = ["0.0"; "7.0"; "-42.0"; "919812345601.0"; "9007199254740991.0";
     "9007199254740992.0"; "9007199254740992.0"; "1e+16"; "1e+16";
     "1.0000000000000002e+16"; "1.2345678901234568e+17";
     "9.223372036854776e+18"; "-9.223372036854776e+18";
     "1.8446744073709552e+19"; "1e+19"].
Proof. vm_compute. reflexivity. Qed.

(** In a table of numbers only with a float among them the rows are
    handed out as floats, and a recipient number read from a column of
    integers goes on the wire as the text of a float: for a number of up
    to 15 digits, its digits followed by [.0].  In any other table it
    goes out as its digits. *)
Theorem numbers_go_out_as_floats (E : env) (net : nat → request → net_event)
    (df : DataFrame) (i : nat) (vals : list cell) (mobile : mapinfo) (z : Z) :
  dict_get "mobile_no" (column_mapping E) = Some mobile →
  data df !! i = Some vals →
  dict_get (mvalue mobile) (zip (columns df) vals) = Some (CellInt z) →
  ∃ req,
    network_calls E net df !! i = Some req ∧
    member "userDetails" (req_json req) ≫= member "number"
    = Some (JStr (if upcasts df then float_text z else str_int z)) ∧
    (upcasts df = true → (0 ≤ z < 2 ^ 53)%Z →
     member "userDetails" (req_json req) ≫= member "number"
     = Some (JStr (str_int z +:+ ".0"))).
Proof.
  intros Hmob Hvals Hz. rewrite (network_calls_rows _ _ _ mobile) by done.
  eexists. rewrite list_lookup_fmap, Hvals. split; [done|].
  assert (str (get (labelled df vals) (mvalue mobile) (CellStr ""))
          = if upcasts df then float_text z else str_int z) as Hnum.
  { unfold get, labelled, row_values. destruct (upcasts df).
    - by rewrite dict_get_zip_fmap, Hz.
    - by rewrite Hz. }
  split.
  - cbn. by rewrite Hnum.
  - intros Hup Hsmall. cbn. rewrite Hnum, Hup. by rewrite float_text_small.
Qed.

Lemma numbers_go_out_as_floats_witness :
  ∃ req,
    network_calls
      {| image_url := ""; image_col_map := "";
         column_mapping := [("mobile_no", Column "Phone")];
         template_obj := sample_template; url := ""; headers := [] |}
      sample_net numbers_df !! 0 = Some req ∧
    member "userDetails" (req_json req) ≫= member "number"
    = Some (JStr "919812345601.0").
Proof.
  destruct (numbers_go_out_as_floats
              {| image_url := ""; image_col_map := "";
                 column_mapping := [("mobile_no", Column "Phone")];
                 template_obj := sample_template; url := ""; headers := [] |}
              sample_net numbers_df 0
              [CellInt 919812345601; CellFloat "12.5"] (Column "Phone")
              919812345601 eq_refl eq_refl eq_refl)
    as (req & Hreq & _ & Hnum).
  exists req. split; [exact Hreq|]. apply Hnum; [reflexivity|lia].
Defined.

(** The merge loop cannot raise on futures that hang or return an index
    in range. *)
Lemma merge_never_raises (n : nat) (fs : list (outcome result))
    (status : list string) (texts : list json) (c : nat) (e : exn) :
  length status = n → length texts = n →
  Forall (λ f, f = Hang ∨ ∃ i stat msg, f = Return (i, stat, msg) ∧ i < n) fs →
  merge fs status texts c ≠ Raise e.
Proof.
  intros Hls Hlt Hfs. revert status texts c Hls Hlt.
  induction Hfs as [|f fs [->|(i & stat & msg & -> & Hi)] Hfs IH];
    intros status texts c Hls Hlt; [done..|].
  cbn [merge and_then]. unfold list_assign.
  rewrite decide_True by lia. cbn [and_then].
  rewrite decide_True by lia. cbn [and_then].
  apply IH; by rewrite length_insert.
Qed.

(** No answer of the network, and no order of completion, makes the batch
    stop with an exception: the failure of a row is recorded in that row. *)
Theorem batch_never_raises (E : env) (net : nat → request → net_event)
    (df : DataFrame) (sched : list nat) (e : exn) :
  dispatch E net df sched ≠ Raise e.
Proof.
  unfold dispatch.
  apply (merge_never_raises (len df)); [apply length_replicate..|].
  apply list.Forall_forall. intros f Hf. unfold as_completed in Hf.
  apply list_elem_of_omap in Hf as (k & _ & Hk).
  rewrite list_lookup_fmap in Hk.
  destruct (submit_all E net df !! k) as [t|] eqn:Ht; [|done].
  simpl in Hk. injection Hk as <-.
  assert (k < len df) as Hlt.
  { apply lookup_lt_Some in Ht. by rewrite submit_all_length in Ht. }
  destruct (lookup_lt_is_Some_2 (data df) k Hlt) as [vals Hvals].
  rewrite (submit_all_lookup _ _ _ _ vals Hvals) in Ht. injection Ht as <-.
  destruct (run_task_outcome E (net k) k (labelled df vals))
    as [->|(stat & msg & ->)]; [by left|right]. by exists k, stat, msg.
Qed.

Lemma set_column_no_rows {V} (name : string) (vals : list V) (df : Frame V) :
  data df = [] → data (set_column name vals df) = [].
Proof.
  intros Hdata. unfold set_column.
  destruct (list_find _ _) as [[j c]|]; cbn [data]; by rewrite Hdata.
Qed.

Lemma set_column_labels {V} (name : string) (vals : list V) (df : Frame V)
    (s : string) :
  s ∈ columns (set_column name vals df) → s ∈ columns df ∨ s = name.
Proof.
  unfold set_column. destruct (list_find _ _) as [[j c]|]; cbn [columns].
  - by left.
  - intros [?|?%list_elem_of_singleton]%elem_of_app; by eauto.
Qed.

(** An empty table: nothing is sent and the result lists are empty
    whatever the schedule; the saved sheet has its header row only, unless
    a column label has a character that the writer refuses, in which case
    the handler stops on that label. *)
Theorem empty_table (E : env) (net : nat → request → net_event)
    (df : DataFrame) (sched : list nat) :
  data df = [] →
  network_calls E net df = [] ∧
  dispatch E net df sched = Return ([], [], 0) ∧
  ((∃ header, send_button E net df sched = Return [header] ∧
              markings [header] = []) ∨
   (∃ label, label ∈ columns df ∧ has_illegal (kept label) = true ∧
             send_button E net df sched
             = Raise (IllegalCharacterError (kept label)))) ∧
  (Forall (λ label, has_illegal (kept label) = false) (columns df) →
   ∃ header, send_button E net df sched = Return [header]).
Proof.
  intros Hdata.
  assert (dispatch E net df sched = Return ([], [], 0)) as Hrun.
  { unfold dispatch, submit_all, iterrows, len. rewrite Hdata.
    cbn [imap fmap list_fmap].
    assert (as_completed (@nil (outcome result)) sched = []) as ->; [|done].
    unfold as_completed. induction sched as [|k sched IH]; [done|].
    by destruct k. }
  split; [|split; [done|]].
  { unfold network_calls, submit_all, iterrows. by rewrite Hdata. }
  unfold send_button. rewrite Hrun. cbn [and_then]. unfold build_report.
  assert (data (with_results df [] []) = []) as Hnone.
  { unfold with_results. apply set_column_no_rows, set_column_no_rows.
    cbn [data]. by rewrite Hdata. }
  assert (∀ s, s ∈ texts_written (with_results df [] []) →
               has_illegal (kept s) = true → s ∈ columns df) as Hlabels.
  { intros s Hs Hbad. unfold texts_written in Hs. rewrite Hnone in Hs.
    apply elem_of_app in Hs as [Hs|Hs].
    - unfold with_results in Hs.
      apply set_column_labels in Hs as [Hs| ->]; [|by vm_compute in Hbad].
      apply set_column_labels in Hs as [Hs| ->]; [done|by vm_compute in Hbad].
    - exfalso. revert Hs. generalize (length (columns (with_results df [] []))).
      intros n. generalize 0. induction n as [|n IH]; intros k Hs.
      + by apply elem_of_nil in Hs.
      + cbn [seq fmap list_fmap mjoin list_join omap list_omap app] in Hs.
        by apply IH in Hs. }
  destruct (writable (with_results df [] [])) eqn:Hw.
  - rewrite to_excel_writable by done. cbn [and_then]. unfold sheet.
    rewrite Hnone. split; [left|]; by eexists.
  - destruct (to_excel_refused _ Hw) as (s & Hs & Hbad & ->). cbn [and_then].
    split.
    + right. exists s. split; [by apply Hlabels|done].
    + intros Hall. rewrite list.Forall_forall in Hall.
      rewrite (Hall s) in Hbad; [done|by apply Hlabels].
Qed.

Lemma empty_table_witness :
  dispatch sample_env sample_net {| columns := ["Phone"]; data := [] |} [4; 2]
    = Return ([], [], 0) ∧
  ∃ header,
    send_button sample_env sample_net {| columns := ["Phone"]; data := [] |}
      [4; 2] = Return [header].
Proof.
  destruct (empty_table sample_env sample_net
              {| columns := ["Phone"]; data := [] |} [4; 2] eq_refl)
    as (_ & H & _ & Hsheet).
  split; [exact H|]. apply Hsheet. by repeat constructor.
Defined.

(** ** The parameters of the payload *)

Lemma dict_get_None {V} (k : string) (d : dict V) :
  dict_get k d = None ↔ k ∉ d.*1.
Proof.
  induction d as [|[k' v] d IH]; simpl.
  - split; [intros _; apply not_elem_of_nil|done].
  - rewrite not_elem_of_cons. destruct (decide (k' = k)) as [->|Hne].
    + split; [done|]. by intros [? _].
    + rewrite IH. split; [by intros ?|by intros [_ ?]].
Qed.

Lemma params_text_lookup (cm : dict mapinfo) (row : Series) (d : dict string)
    (f : string) :
  NoDup cm.*1 → f ≠ "mobile_no" →
  dict_get f (params_text cm row d)
  = match dict_get f cm with
    | Some m => Some (resolve row m)
    | None => dict_get f d
    end.
Proof.
  intros Hnd Hf. revert d. induction cm as [|[k m] cm IH]; intros d; [done|].
  apply list.NoDup_cons in Hnd as [Hk Hnd]. specialize (IH Hnd).
  cbn [params_text foldl dict_get]. fold (params_text cm row).
  destruct (decide (k = "mobile_no")) as [->|Hmob].
  - rewrite decide_False by done. apply IH.
  - fold (params_text cm row (dict_set k (resolve row m) d)). rewrite IH.
    destruct (decide (k = f)) as [->|Hne].
    + apply dict_get_None in Hk. cbn [fmap list_fmap fst] in Hk.
      by rewrite Hk, dict_get_set_eq.
    + by rewrite dict_get_set_ne.
Qed.

Lemma wire_params (E : env) (net : request → net_event) (i : nat)
    (row : Series) (req : request) :
  (run_task E net i row).2 = [req] →
  NoDup (column_mapping E).*1 →
  ∃ ps,
    member "notification" (req_json req) ≫= member "params" = Some (JObj ps) ∧
    ∀ field,
      field ≠ "media" ∨ final_img (image_url E) (image_col_map E) row = "" →
      dict_get field ps
      = if decide (field = "mobile_no") then None
        else JStr ∘ resolve row <$> dict_get field (column_mapping E).
Proof.
  intros Hw Hnd. apply run_task_wire in Hw as (mobile & _ & -> & _).
  unfold sent_request, payload_json. cbn [req_json].
  eexists. split; [reflexivity|]. intros field Hfield.
  assert (dict_get field (jstr <$> params_text (column_mapping E) row [])
          = if decide (field = "mobile_no") then None
            else JStr ∘ resolve row <$> dict_get field (column_mapping E))
    as Hps.
  { unfold jstr. rewrite dict_get_fmap. destruct (decide _) as [->|Hmob].
    - by rewrite params_text_skips_mobile.
    - rewrite params_text_lookup by done.
      by destruct (dict_get field (column_mapping E)). }
  unfold truthy. case_bool_decide as Himg; [|done].
  destruct Hfield as [Hne|Hno]; [|done]. by rewrite dict_get_set_ne.
Qed.

(** For every field of the mapping other than [mobile_no], the posted
    [params] hold the resolved text of that field for the row, and [params]
    hold nothing that the mapping does not name.  The one exception is the
    key [media] when the task has an image: that entry is the media
    object, also when a field is called [media]. *)
Theorem params_follow_mapping (E : env) (net : request → net_event) (i : nat)
    (row : Series) (req : request) :
  (run_task E net i row).2 = [req] →
  NoDup (column_mapping E).*1 →
  ∃ ps,
    member "notification" (req_json req) ≫= member "params" = Some (JObj ps) ∧
    ∀ field,
      field ≠ "media" ∨ final_img (image_url E) (image_col_map E) row = "" →
      dict_get field ps
      = if decide (field = "mobile_no") then None
        else JStr ∘ resolve row <$> dict_get field (column_mapping E).
Proof. apply wire_params. Qed.

Lemma params_follow_mapping_witness :
  ∃ ps,
    member "notification"
      (req_json (sent_request sample_env_image padded_row (Column "Phone")))
      ≫= member "params" = Some (JObj ps) ∧
    dict_get "name" ps = Some (JStr "Alice") ∧
    dict_get "code" ps = Some (JStr "X1") ∧
    dict_get "mobile_no" ps = None ∧
    dict_get "city" ps = None.
Proof.
  destruct (params_follow_mapping sample_env_image (sample_net 0) 0 padded_row
              (sent_request sample_env_image padded_row (Column "Phone"))
              eq_refl) as (ps & Hps & Hget).
  { cbv [sample_env_image sample_env column_mapping fmap list_fmap fst].
    repeat (apply NoDup_cons_2; [by apply (bool_decide_unpack _)|]).
    apply NoDup_nil_2. }
  exists ps. split; [exact Hps|].
  rewrite !Hget by (by left). repeat split.
Defined.

(** ** More on the report *)

Lemma with_results_rows (df : DataFrame) (status : list string)
    (texts : list json) (i : nat) (r : list pyobj) :
  "Status" ∉ columns df → "API Response" ∉ columns df →
  data (with_results df status texts) !! i = Some r →
  ∃ vals stat msg,
    data df !! i = Some vals ∧ status !! i = Some stat ∧
    texts !! i = Some msg ∧
    r = (Scalar <$> vals) ++ [Scalar (CellStr stat); stored_message texts msg].
Proof.
  intros Hs Ha. destruct (with_results_new df status texts Hs Ha) as [_ ->].
  destruct (data df !! i) as [vals|]; [|done].
  destruct (status !! i) as [stat|]; [|done]. simpl.
  destruct (texts !! i) as [msg|]; [|done]. simpl.
  intros [= <-]. by exists vals, stat, msg.
Qed.

(** The saved sheet and its marking, row by row, on any table whose rows
    are as wide as its header: the sheet is saved when the writer refuses
    none of its texts, and the handler stops on the first refused text
    otherwise. *)
Lemma report_markings (df : DataFrame) (status : list string)
    (texts : list json) :
  "Status" ∉ columns df → "API Response" ∉ columns df →
  Forall (λ r, length r = length (columns df)) (data df) →
  if writable (with_results df status texts)
  then ∃ ws,
         build_report df status texts = Return ws ∧
         values ws = values (sheet (with_results df status texts)) ∧
         markings ws
         = (λ r : list pyobj, reads_failed (excel_value <$> r))
             <$> data (with_results df status texts)
  else ∃ s, s ∈ texts_written (with_results df status texts) ∧
            has_illegal (kept s) = true ∧
            build_report df status texts
            = Raise (IllegalCharacterError (kept s)).
Proof.
  intros Hs Ha Hrect. unfold build_report.
  destruct (writable _) eqn:Hw.
  - rewrite to_excel_writable by done. eexists. split; [done|].
    split; [by rewrite highlight_values|].
    apply highlight_follows_fourth_column.
    + destruct (with_results_new df status texts Hs Ha) as [-> _].
      by destruct (columns df).
    + apply Forall_lookup. intros i r Hr.
      destruct (with_results_rows _ _ _ _ _ Hs Ha Hr)
        as (vals & stat & msg & Hvals & _ & _ & ->).
      destruct (with_results_new df status texts Hs Ha) as [-> _].
      apply (Forall_lookup_1 _ _ _ _ Hrect) in Hvals.
      rewrite !length_app, length_fmap, Hvals. done.
  - destruct (to_excel_refused _ Hw) as (s & Hin & Hbad & ->). by exists s.
Qed.

(** The report of a rectangular table is saved exactly when the writer
    refuses none of its texts.  In the saved sheet a data row is marked
    exactly when the text of its fourth value, in lower case, is [failed]
    or [error]; the values of the row play no other part, and neither does
    the status unless it is that fourth value. *)
Theorem report_marks_by_fourth_value (df : DataFrame) (status : list string)
    (texts : list json) :
  "Status" ∉ columns df → "API Response" ∉ columns df →
  Forall (λ r, length r = length (columns df)) (data df) →
  (writable (with_results df status texts) = true →
   ∃ ws, build_report df status texts = Return ws ∧
         ∀ i r, values ws !! S i = Some r →
                markings ws !! i = Some (reads_failed r)) ∧
  (writable (with_results df status texts) = false →
   ∃ s, has_illegal s = true ∧
        build_report df status texts = Raise (IllegalCharacterError s)).
Proof.
  intros Hs Ha Hrect.
  pose proof (report_markings df status texts Hs Ha Hrect) as Hrep.
  split; intros Hw; rewrite Hw in Hrep.
  - destruct Hrep as (ws & Hrun & Hvals & Hmarks). exists ws.
    split; [done|]. intros i r Hr. rewrite Hvals, sheet_values in Hr.
    rewrite Hmarks, list_lookup_fmap.
    change ((?x :: ?l) !! S i) with (l !! i) in Hr.
    rewrite list_lookup_fmap in Hr.
    destruct (data (with_results df status texts) !! i) as [r'|]; [|done].
    simpl in Hr. by injection Hr as <-.
  - destruct Hrep as (s & _ & Hbad & Hrun). by exists (kept s).
Qed.

Lemma report_marks_by_fourth_value_witness :
  ∃ ws, build_report four_column_df sample_status sample_texts = Return ws ∧
        markings ws !! 0 = Some true.
Proof.
  destruct (report_marks_by_fourth_value four_column_df sample_status
              sample_texts) as [Hsaved _].
  - by apply (bool_decide_unpack _).
  - by apply (bool_decide_unpack _).
  - by repeat constructor.
  - destruct Hsaved as (ws & Hrun & Hmarks); [by vm_compute|].
    exists ws. split; [done|].
    apply (Hmarks 0
             [XlScalar (CellInt 919812345601); XlText "Alice"; XlText "Pune";
              XlText "Error"; XlText "Sent"; XlText "queued"]).
    vm_compute in Hrun. injection Hrun as <-. by vm_compute.
Defined.

(** A table with at most one column never gets a marked row, whatever the
    outcomes and the messages: column D of its sheet is empty. *)
Theorem narrow_table_never_marked (df : DataFrame) (status : list string)
    (texts : list json) :
  (length (columns df) ≤ 1)%nat →
  "Status" ∉ columns df → "API Response" ∉ columns df →
  Forall (λ r, length r = length (columns df)) (data df) →
  (writable (with_results df status texts) = true →
   ∃ ws, build_report df status texts = Return ws ∧
         Forall (λ b, b = false) (markings ws)) ∧
  (writable (with_results df status texts) = false →
   ∃ s, has_illegal s = true ∧
        build_report df status texts = Raise (IllegalCharacterError s)).
Proof.
  intros Hcols Hs Ha Hrect.
  pose proof (report_markings df status texts Hs Ha Hrect) as Hrep.
  split; intros Hw; rewrite Hw in Hrep.
  - destruct Hrep as (ws & Hrun & _ & Hmarks). exists ws. split; [done|].
    rewrite Hmarks. apply Forall_fmap, Forall_lookup. intros i r Hr.
    destruct (with_results_rows _ _ _ _ _ Hs Ha Hr)
      as (vals & stat & msg & Hvals & _ & _ & ->).
    apply (Forall_lookup_1 _ _ _ _ Hrect) in Hvals.
    simpl. unfold reads_failed.
    rewrite lookup_ge_None_2; [done|].
    rewrite length_fmap, length_app, length_fmap. simpl. lia.
  - destruct Hrep as (s & _ & Hbad & Hrun). by exists (kept s).
Qed.

Lemma narrow_table_never_marked_witness :
  ∃ ws, build_report one_column_df sample_status sample_texts = Return ws ∧
        Forall (λ b, b = false) (markings ws).
Proof.
  destruct (narrow_table_never_marked one_column_df sample_status sample_texts)
    as [Hsaved _];
    [simpl; lia|by apply (bool_decide_unpack _)..|by repeat constructor|].
  apply Hsaved. by vm_compute.
Defined.

Lemma highlight_three_columns_witness :
  ∃ ws, build_report sample_df sample_status sample_texts = Return ws ∧
        markings ws = [false; true; true].
Proof.
  apply (highlight_three_columns sample_df sample_status sample_texts);
    [done|by apply (bool_decide_unpack _)|by apply (bool_decide_unpack _)
    |by repeat constructor|done|done|by vm_compute].
Defined.

(** A table that already has a column called [Status] does not get a new
    one: the outcomes take the place of the values of that column, which
    are lost from the report, and only [API Response] is added. *)
Theorem existing_status_column_overwritten (df : DataFrame)
    (status : list string) (texts : list json) (j : nat) :
  NoDup (columns df) → columns df !! j = Some "Status" →
  "API Response" ∉ columns df →
  columns (with_results df status texts) = columns df ++ ["API Response"] ∧
  ∀ i vals stat msg,
    data df !! i = Some vals → status !! i = Some stat →
    texts !! i = Some msg →
    data (with_results df status texts) !! i
    = Some (<[j := Scalar (CellStr stat)]> (Scalar <$> vals)
            ++ [stored_message texts msg]).
Proof.
  intros Hnd Hj Ha. unfold with_results. cbv zeta.
  set (df0 := {| columns := columns df;
                 data := (λ r : list cell, Scalar <$> r) <$> data df |}).
  assert (list_find (λ c, c = "Status") (columns df0) = Some (j, "Status"))
    as Hfind.
  { apply list_find_Some. split; [done|]. split; [done|].
    intros j' y Hj' Hlt ->. pose proof (NoDup_lookup _ _ _ _ Hnd Hj Hj'). lia. }
  assert (set_column "Status" (Scalar ∘ CellStr <$> status) df0
          = {| columns := columns df;
               data := zip_with (λ r v, <[j:=v]> r) (data df0)
                                (Scalar ∘ CellStr <$> status) |}) as ->.
  { unfold set_column. by rewrite Hfind. }
  rewrite set_column_new by done. cbn [columns data]. split; [done|].
  intros i vals stat msg Hvals Hstat Hmsg.
  subst df0. cbn [data].
  by rewrite !lookup_zip_with, !list_lookup_fmap, Hvals, Hstat, infer_lookup,
    Hmsg.
Qed.

Lemma existing_status_column_overwritten_witness :
  data (with_results
          {| columns := ["Phone"; "Status"];
             data := [[CellInt 919812345601; CellStr "new lead"]] |}
          ["Sent"] [JStr "queued"]) !! 0
  = Some [Scalar (CellInt 919812345601); Scalar (CellStr "Sent");
          Scalar (CellStr "queued")].
Proof.
  destruct (existing_status_column_overwritten
              {| columns := ["Phone"; "Status"];
                 data := [[CellInt 919812345601; CellStr "new lead"]] |}
              ["Sent"] [JStr "queued"] 1) as [_ H].
  - repeat (apply NoDup_cons_2; [by apply (bool_decide_unpack _)|]).
    apply NoDup_nil_2.
  - reflexivity.
  - by apply (bool_decide_unpack _).
  - apply (H 0 [CellInt 919812345601; CellStr "new lead"] "Sent"
             (JStr "queued")); reflexivity.
Defined.

(** ** Placeholders of a message *)

Lemma str_app_nil_l (t : string) : "" +:+ t = t.
Proof. reflexivity. Qed.

Lemma str_app_cons (c : ascii) (s t : string) :
  String c s +:+ t = String c (s +:+ t).
Proof. reflexivity. Qed.

Lemma str_app_nil_r (s : string) : s +:+ "" = s.
Proof. induction s as [|c s IH]; [done|]. by rewrite str_app_cons, IH. Qed.

Lemma str_app_assoc (s t u : string) : (s +:+ t) +:+ u = s +:+ t +:+ u.
Proof. induction s as [|c s IH]; [done|]. by rewrite !str_app_cons, IH. Qed.

Lemma str_app_length (s t : string) :
  String.length (s +:+ t) = (String.length s + String.length t)%nat.
Proof. induction s as [|c s IH]; [done|]. rewrite str_app_cons. simpl. lia. Qed.

Lemma until_close_spec (s g t : string) :
  until_close s = Some (g, t) → s = g +:+ "}}" +:+ t.
Proof.
  revert g t. induction s as [|c r IH]; intros g t; [done|].
  cbn [until_close]. destruct r as [|c' r']; [done|].
  destruct (decide (c = "}"%char ∧ c' = "}"%char)) as [[-> ->]|_].
  { by intros [= <- <-]. }
  destruct (decide (c = newline)); [done|].
  destruct (until_close (String c' r')) as [[g' t']|] eqn:Hr; [|done].
  simpl. intros [= <- <-]. rewrite str_app_cons. f_equal. by apply IH.
Qed.

Lemma match_here_spec (s g t : string) :
  match_here s = Some (g, t) → s = seg_text (Hole g) +:+ t.
Proof.
  destruct s as [|c [|c' r]]; try done. simpl.
  destruct (decide _) as [[-> ->]|]; [|done].
  intros ->%until_close_spec. cbn [seg_text].
  by rewrite !str_app_assoc.
Qed.

Lemma occurs_cons (p : string) (c : ascii) (s : string) :
  occurs p s → occurs p (String c s).
Proof. intros (a & b & ->). by exists (String c a), b. Qed.

Lemma occurs_app_r (p s t : string) : occurs p t → occurs p (s +:+ t).
Proof.
  intros (a & b & ->). exists (s +:+ a), b. by rewrite str_app_assoc.
Qed.

(** Every name that the scan extracts stands in the message between
    double braces: a required field is always a placeholder of the text. *)
Theorem required_fields_are_placeholders (t : template) (name : string) :
  name ∈ required_fields t → occurs ("{{" +:+ name +:+ "}}") (message t).
Proof.
  unfold required_fields. generalize (String.length (message t)).
  generalize (message t). clear t.
  intros s fuel. revert s. induction fuel as [|fuel IH]; intros s Hin.
  - by apply elem_of_nil in Hin.
  - destruct s as [|c r]; [by apply elem_of_nil in Hin|].
    cbn [findall] in Hin.
    destruct (match_here (String c r)) as [[g u]|] eqn:Hm.
    + apply match_here_spec in Hm. rewrite Hm.
      apply elem_of_cons in Hin as [->|Hin].
      * by exists "", u.
      * by apply occurs_app_r, IH.
    + by apply occurs_cons, IH.
Qed.

Lemma required_fields_are_placeholders_witness :
  occurs "{{code}}" (message sample_template).
Proof.
  apply (required_fields_are_placeholders sample_template "code").
  by apply (bool_decide_unpack _).
Defined.

Lemma plain_name_cons (c : ascii) (s : string) :
  plain_name (String c s) →
  c ≠ "{"%char ∧ c ≠ "}"%char ∧ c ≠ newline ∧ plain_name s.
Proof.
  unfold plain_name. cbn [all_chars]. intros [[Hb Hn]%andb_True Hs]%andb_True.
  apply negb_True in Hb, Hn. unfold is_brace in Hb.
  rewrite bool_decide_spec in Hb, Hn.
  split; [by intros ->; apply Hb; left|].
  split; [by intros ->; apply Hb; right|done].
Qed.

Lemma plain_text_cons (c : ascii) (s : string) :
  plain_text (String c s) → c ≠ "{"%char ∧ c ≠ "}"%char ∧ plain_text s.
Proof.
  unfold plain_text. cbn [all_chars]. intros [Hb Hs]%andb_True.
  apply negb_True in Hb. unfold is_brace in Hb.
  rewrite bool_decide_spec in Hb.
  split; [by intros ->; apply Hb; left|].
  split; [by intros ->; apply Hb; right|done].
Qed.

Lemma plain_name_text (s : string) : plain_name s → plain_text s.
Proof.
  induction s as [|c s IH]; [done|].
  intros (Ho & Hc & _ & Hs)%plain_name_cons.
  unfold plain_text. cbn [all_chars]. apply andb_True. split; [|by apply IH].
  apply negb_True. unfold is_brace. rewrite bool_decide_spec.
  by intros [?|?].
Qed.

Lemma until_close_name (name rest : string) :
  plain_name name →
  until_close (name +:+ "}}" +:+ rest) = Some (name, rest).
Proof.
  induction name as [|c name IH]; [done|].
  intros (Ho & Hc & Hn & Hname)%plain_name_cons.
  rewrite str_app_cons. cbn [until_close]. specialize (IH Hname).
  destruct (name +:+ "}}" +:+ rest) as [|c' r'] eqn:Hr; [by destruct name|].
  rewrite decide_False by (by intros [? _]). rewrite decide_False by done.
  by rewrite IH.
Qed.

Lemma match_here_hole (name rest : string) :
  plain_name name →
  match_here (seg_text (Hole name) +:+ rest) = Some (name, rest).
Proof.
  intros Hname. cbn [seg_text]. rewrite !str_app_assoc.
  change ("{{" +:+ name +:+ "}}" +:+ rest)
    with (String "{" (String "{" (name +:+ "}}" +:+ rest))).
  cbn [match_here]. rewrite decide_True by done. by apply until_close_name.
Qed.

Lemma match_here_other (c : ascii) (r : string) :
  c ≠ "{"%char → match_here (String c r) = None.
Proof.
  intros Hc. destruct r as [|c' r]; [done|]. simpl.
  by rewrite decide_False by (by intros [? _]).
Qed.

Lemma findall_step (fuel : nat) (c : ascii) (r : string) :
  findall (S fuel) (String c r)
  = match match_here (String c r) with
    | Some (g, t) => g :: findall fuel t
    | None => findall fuel r
    end.
Proof. reflexivity. Qed.

Lemma findall_text (s rest : string) :
  plain_text s →
  findall (String.length (s +:+ rest)) (s +:+ rest)
  = findall (String.length rest) rest.
Proof.
  induction s as [|c s IH]; [done|]. intros (Ho & _ & Hs)%plain_text_cons.
  rewrite str_app_cons. cbn [String.length].
  rewrite findall_step, match_here_other by done. by apply IH.
Qed.

Lemma findall_hole (name rest : string) :
  plain_name name →
  findall (String.length (seg_text (Hole name) +:+ rest))
          (seg_text (Hole name) +:+ rest)
  = name :: findall (String.length rest) rest.
Proof.
  intros Hname. pose proof (match_here_hole name rest Hname) as Hm.
  cbn [seg_text] in *. rewrite !str_app_assoc in *.
  change ("{{" +:+ name +:+ "}}" +:+ rest)
    with (String "{" (String "{" (name +:+ "}}" +:+ rest))) in *.
  cbn [String.length]. rewrite findall_step, Hm. f_equal.
  apply findall_fuel; [|done]. rewrite !str_app_length. lia.
Qed.

(** For a message made of brace-free text and of placeholders with plain
    names, the required fields are the names of the placeholders, in
    order of appearance and with their repetitions. *)
Theorem required_fields_of_segments (t : template) (segs : list segment) :
  message t = flatten segs → Forall plain_segment segs →
  required_fields t = holes segs.
Proof.
  unfold required_fields. intros -> Hsegs.
  induction Hsegs as [|[s|name] segs Hg Hsegs IH]; [done|..];
    cbn [flatten holes omap].
  - fold (holes segs). cbn [seg_text]. by rewrite findall_text.
  - fold (holes segs). rewrite findall_hole by done. by rewrite IH.
Qed.

Lemma required_fields_of_segments_witness :
  required_fields sample_template = ["name"; "code"].
Proof.
  apply (required_fields_of_segments sample_template
           [Text "Hi "; Hole "name"; Text ", your code is "; Hole "code"]).
  - reflexivity.
  - repeat constructor.
Defined.

(** ** The mapping built by the form *)

Lemma dict_set_keys {V} (k : string) (v : V) (d : dict V) :
  NoDup d.*1 → NoDup (dict_set k v d).*1.
Proof.
  induction d as [|[k' v'] d IH]; intros Hnd.
  - simpl. apply NoDup_singleton.
  - apply list.NoDup_cons in Hnd as [Hk' Hnd]. simpl.
    destruct (decide (k' = k)) as [->|Hne]; simpl.
    + by apply NoDup_cons_2.
    + apply NoDup_cons_2; [|by apply IH].
      apply dict_get_None. rewrite dict_get_set_ne by done.
      by apply dict_get_None.
Qed.

Lemma foldl_dict_set_keys {V} (g : string → V) (fields : list string)
    (cm : dict V) :
  NoDup cm.*1 → NoDup (foldl (λ cm f, dict_set f (g f) cm) cm fields).*1.
Proof.
  revert cm. induction fields as [|f fields IH]; intros cm Hnd; [done|].
  simpl. by apply IH, dict_set_keys.
Qed.

Lemma foldl_dict_set_get {V} (g : string → V) (fields : list string)
    (cm : dict V) (k : string) :
  dict_get k (foldl (λ cm f, dict_set f (g f) cm) cm fields)
  = if decide (k ∈ fields) then Some (g k) else dict_get k cm.
Proof.
  revert cm. induction fields as [|f fields IH]; intros cm.
  - cbn [foldl]. destruct (decide (k ∈ [])) as [Hin|_]; [|done].
    by apply elem_of_nil in Hin.
  - cbn [foldl]. rewrite IH. destruct (decide (k ∈ fields)) as [Hin|Hout].
    + destruct (decide (k ∈ f :: fields)) as [_|Hno]; [done|].
      destruct Hno. by right.
    + destruct (decide (f = k)) as [->|Hne].
      * rewrite dict_get_set_eq.
        destruct (decide (k ∈ k :: fields)) as [_|Hno]; [done|].
        destruct Hno. left.
      * rewrite dict_get_set_ne by done.
        destruct (decide (k ∈ f :: fields)) as [Hin|_]; [|done].
        by apply elem_of_cons in Hin as [->|?].
Qed.

Lemma form_mapping_get (ui : string → widgets) (t : template) (k : string) :
  dict_get k (form_mapping ui t)
  = if decide (k ∈ required_fields t)
    then Some (map_column ui ("map_" +:+ k))
    else if decide (k = "mobile_no")
         then Some (map_column ui "mobile_map") else None.
Proof.
  unfold form_mapping.
  rewrite (foldl_dict_set_get (λ f, map_column ui ("map_" +:+ f))).
  destruct (decide (k ∈ required_fields t)); [done|]. simpl.
  destruct (decide ("mobile_no" = k)) as [<-|Hne].
  - by rewrite decide_True.
  - by rewrite decide_False.
Qed.

Lemma form_mapping_keys (ui : string → widgets) (t : template) :
  NoDup (form_mapping ui t).*1.
Proof.
  unfold form_mapping.
  apply (foldl_dict_set_keys (λ f, map_column ui ("map_" +:+ f))).
  simpl. apply NoDup_singleton.
Qed.

(** *** Widget keys *)

Lemma str_list_app (s t : string) :
  list_ascii_of_string (s +:+ t)
  = list_ascii_of_string s ++ list_ascii_of_string t.
Proof.
  induction s as [|c s IH]; [done|]. rewrite str_app_cons. simpl. by rewrite IH.
Qed.

Lemma str_list_inj (s t : string) :
  list_ascii_of_string s = list_ascii_of_string t → s = t.
Proof.
  intros Heq. rewrite <-(string_of_list_ascii_of_string s),
    <-(string_of_list_ascii_of_string t). by rewrite Heq.
Qed.

(** Two keys made of a prefix and one of the three endings are the same
    only when the prefixes and the endings are. *)
Lemma key_eq (p q a b : string) :
  a ∈ ["_type"; "_col"; "_custom"] → b ∈ ["_type"; "_col"; "_custom"] →
  p +:+ a = q +:+ b → p = q ∧ a = b.
Proof.
  intros Ha Hb Heq. apply (f_equal list_ascii_of_string) in Heq.
  rewrite !str_list_app in Heq.
  assert (∀ (l k : list ascii) x y u v,
            (l ++ u) ++ [x] = (k ++ v) ++ [y] → x ≠ y → False) as Hlast.
  { intros l k x y u v H Hne. apply app_inj_2 in H as [_ [= ?]]; done. }
  repeat (apply elem_of_cons in Ha as [->|Ha]);
    repeat (apply elem_of_cons in Hb as [->|Hb]);
    try (by apply elem_of_nil in Ha); try (by apply elem_of_nil in Hb);
    try (split; [|done]; apply str_list_inj;
         by apply app_inj_2 in Heq as [? _]);
    exfalso.
  - apply (Hlast (list_ascii_of_string p) (list_ascii_of_string q)
             "e"%char "l"%char (list_ascii_of_string "_typ")
             (list_ascii_of_string "_co")); [|done].
    by rewrite <-!app_assoc.
  - apply (Hlast (list_ascii_of_string p) (list_ascii_of_string q)
             "e"%char "m"%char (list_ascii_of_string "_typ")
             (list_ascii_of_string "_custo")); [|done].
    by rewrite <-!app_assoc.
  - apply (Hlast (list_ascii_of_string p) (list_ascii_of_string q)
             "l"%char "e"%char (list_ascii_of_string "_co")
             (list_ascii_of_string "_typ")); [|done].
    by rewrite <-!app_assoc.
  - apply (Hlast (list_ascii_of_string p) (list_ascii_of_string q)
             "l"%char "m"%char (list_ascii_of_string "_co")
             (list_ascii_of_string "_custo")); [|done].
    by rewrite <-!app_assoc.
  - apply (Hlast (list_ascii_of_string p) (list_ascii_of_string q)
             "m"%char "e"%char (list_ascii_of_string "_custo")
             (list_ascii_of_string "_typ")); [|done].
    by rewrite <-!app_assoc.
  - apply (Hlast (list_ascii_of_string p) (list_ascii_of_string q)
             "m"%char "l"%char (list_ascii_of_string "_custo")
             (list_ascii_of_string "_co")); [|done].
    by rewrite <-!app_assoc.
Qed.

Lemma widget_keys_shape (ui : string → widgets) (p k : string) :
  k ∈ widget_keys ui p →
  ∃ a, a ∈ ["_type"; "_col"; "_custom"] ∧ k = p +:+ a.
Proof.
  unfold widget_keys. intros [->|Hk]%elem_of_cons.
  - exists "_type". split; [left|done].
  - apply list_elem_of_singleton in Hk as ->.
    destruct (decide _).
    + exists "_col". split; [right; left|done].
    + exists "_custom". split; [right; right; left|done].
Qed.

Lemma widget_keys_type (ui : string → widgets) (p : string) :
  p +:+ "_type" ∈ widget_keys ui p.
Proof. left. Qed.

Lemma widget_keys_nodup (ui : string → widgets) (p : string) :
  NoDup (widget_keys ui p).
Proof.
  unfold widget_keys. apply NoDup_cons_2; [|apply NoDup_singleton].
  intros Hin%list_elem_of_singleton.
  destruct (decide _); apply key_eq in Hin as [_ ?]; try done;
    repeat first [left|right; left|right; right; left].
Qed.

(** Widgets drawn under different prefixes have different keys. *)
Lemma widget_keys_disjoint (ui : string → widgets) (p q k : string) :
  k ∈ widget_keys ui p → k ∈ widget_keys ui q → p = q.
Proof.
  intros (a & Ha & ->)%widget_keys_shape (b & Hb & Heq)%widget_keys_shape.
  by apply key_eq in Heq as [? _].
Qed.

Lemma map_prefix_inj (f g : string) : "map_" +:+ f = "map_" +:+ g → f = g.
Proof.
  change ("map_" +:+ f) with (String "m" (String "a" (String "p" (String "_" f)))).
  change ("map_" +:+ g) with (String "m" (String "a" (String "p" (String "_" g)))).
  by intros [= ->].
Qed.

Lemma map_prefix_mobile (f : string) : "map_" +:+ f ≠ "mobile_map".
Proof.
  change ("map_" +:+ f) with (String "m" (String "a" (String "p" (String "_" f)))).
  done.
Qed.

Lemma draw_fresh (new keys : list string) :
  NoDup new → (∀ k, k ∈ new → k ∉ keys) → draw new keys = inr (keys ++ new).
Proof.
  revert keys. induction new as [|k new IH]; intros keys Hnd Hfresh.
  - by rewrite app_nil_r.
  - apply list.NoDup_cons in Hnd as [Hk Hnd]. cbn [draw].
    rewrite decide_False by (apply Hfresh; left).
    rewrite IH; [by rewrite <-app_assoc|done|].
    intros k' Hk' [Hin|<-%list_elem_of_singleton]%elem_of_app; [|done].
    revert Hin. apply Hfresh. by right.
Qed.

Lemma draw_taken (new keys : list string) (k : string) :
  k ∈ new → k ∈ keys → ∃ key, draw new keys = inl key.
Proof.
  revert keys. induction new as [|k' new IH]; intros keys Hnew Hkeys.
  - by apply elem_of_nil in Hnew.
  - cbn [draw]. destruct (decide (k' ∈ keys)) as [?|Hout]; [by eexists|].
    apply IH.
    + apply elem_of_cons in Hnew as [->|?]; done.
    + apply elem_of_app. by left.
Qed.

Lemma draw_inr (new keys keys' : list string) :
  draw new keys = inr keys' → keys' = keys ++ new.
Proof.
  revert keys. induction new as [|k new IH]; intros keys.
  - intros [= <-]. by rewrite app_nil_r.
  - cbn [draw]. destruct (decide _); [done|]. intros ->%IH.
    by rewrite <-app_assoc.
Qed.

Lemma fold_stopped (ui : string → widgets) (fields : list string)
    (key : string) :
  foldl (λ f field, map_field ui field ("map_" +:+ field) f) (inl key) fields
  = inl key.
Proof. induction fields as [|f fields IH]; [done|]. exact IH. Qed.

(** The form drawn for placeholders that are all different. *)
Lemma form_fold (ui : string → widgets) (fields : list string)
    (keys : list string) (cm : dict mapinfo) :
  NoDup fields →
  (∀ f k, f ∈ fields → k ∈ widget_keys ui ("map_" +:+ f) → k ∉ keys) →
  foldl (λ f field, map_field ui field ("map_" +:+ field) f)
        (inr (keys, cm)) fields
  = inr (keys ++ keys_of ui fields,
         foldl (λ cm field,
                  dict_set field (map_column ui ("map_" +:+ field)) cm)
               cm fields).
Proof.
  revert keys cm. induction fields as [|f fields IH]; intros keys cm Hnd Hfresh.
  - unfold keys_of. simpl. by rewrite app_nil_r.
  - apply list.NoDup_cons in Hnd as [Hf Hnd]. cbn [foldl map_field].
    rewrite draw_fresh;
      [|apply widget_keys_nodup|intros k Hk; apply (Hfresh f); [left|done]].
    rewrite IH; [|done|].
    + unfold keys_of. cbn [fmap list_fmap mjoin list_join].
      by rewrite <-app_assoc.
    + intros g k Hg Hk [Hin|Hin]%elem_of_app.
      * revert Hin. apply (Hfresh g); [by right|done].
      * apply (widget_keys_disjoint _ _ _ _ Hk), map_prefix_inj in Hin.
        by subst g.
Qed.

(** The form drawn for placeholders of which one comes twice, or one has
    its key taken already: the run stops. *)
Lemma form_fold_stops (ui : string → widgets) (fields : list string)
    (keys : list string) (cm : dict mapinfo) :
  (∃ f, f ∈ fields ∧ ("map_" +:+ f) +:+ "_type" ∈ keys) ∨ ¬ NoDup fields →
  ∃ key,
    foldl (λ f field, map_field ui field ("map_" +:+ field) f)
          (inr (keys, cm)) fields
    = inl key.
Proof.
  revert keys cm. induction fields as [|f fields IH]; intros keys cm Hdup.
  - destruct Hdup as [(f & Hf & _)|Hdup]; [by apply elem_of_nil in Hf|].
    destruct Hdup. apply NoDup_nil_2.
  - cbn [foldl map_field].
    destruct (draw _ keys) as [key|keys'] eqn:Hdraw.
    + exists key. apply fold_stopped.
    + pose proof (draw_inr _ _ _ Hdraw) as Hkeys. apply IH.
      destruct Hdup as [(g & [->|Hg]%elem_of_cons & Hkey)|Hdup].
      * destruct (draw_taken (widget_keys ui ("map_" +:+ f)) keys _
                    (widget_keys_type ui _) Hkey) as [key Hkey'].
        congruence.
      * left. exists g. split; [done|]. rewrite Hkeys. apply elem_of_app.
        by left.
      * destruct (decide (f ∈ fields)) as [Hin|Hout].
        -- left. exists f. split; [done|]. rewrite Hkeys. apply elem_of_app.
           right. apply widget_keys_type.
        -- right. intros Hnd. apply Hdup. by apply NoDup_cons_2.
Qed.

(** The form is built exactly when no placeholder comes twice in the
    message, and then with the mapping drawn to its end. *)
Lemma build_column_mapping_nodup (ui : string → widgets) (t : template) :
  NoDup (required_fields t) →
  build_column_mapping ui t = Built (form_mapping ui t).
Proof.
  intros Hnd. unfold build_column_mapping. cbn [map_field].
  rewrite draw_fresh;
    [|apply widget_keys_nodup|by intros k _ ?%elem_of_nil].
  cbn [app dict_set]. rewrite form_fold; [done..|].
  intros f k _ Hk Hin.
  by apply (widget_keys_disjoint _ _ _ _ Hk), map_prefix_mobile in Hin.
Qed.

Lemma build_column_mapping_dup (ui : string → widgets) (t : template) :
  ¬ NoDup (required_fields t) →
  ∃ key, build_column_mapping ui t = DuplicateKey key.
Proof.
  intros Hdup. unfold build_column_mapping. cbn [map_field].
  rewrite draw_fresh;
    [|apply widget_keys_nodup|by intros k _ ?%elem_of_nil].
  destruct (form_fold_stops ui (required_fields t)
              ([] ++ widget_keys ui "mobile_map")
              (dict_set "mobile_no" (map_column ui "mobile_map") []))
    as [key ->]; [by right|by exists key].
Qed.

Lemma build_column_mapping_built (ui : string → widgets) (t : template)
    (cm : dict mapinfo) :
  build_column_mapping ui t = Built cm →
  NoDup (required_fields t) ∧ cm = form_mapping ui t.
Proof.
  intros Hb. destruct (decide (NoDup (required_fields t))) as [Hnd|Hdup].
  - rewrite build_column_mapping_nodup in Hb by done. by injection Hb as <-.
  - apply (build_column_mapping_dup ui) in Hdup as [key Hkey]. congruence.
Qed.

(** The mapping that the form builds has one entry for each required
    name and no other: every placeholder carries the choice made in its
    own widgets, and [mobile_no] carries the choice of the mobile widgets,
    unless the message has a placeholder called [mobile_no], whose widgets
    then decide the recipient column.  The form builds it when the
    placeholders of the message are all different; when one comes twice,
    its widgets are asked for under keys that are taken, and the run
    stops there without a mapping. *)
Theorem column_mapping_built (ui : string → widgets) (t : template) :
  (NoDup (required_fields t) →
   ∃ cm,
     build_column_mapping ui t = Built cm ∧
     NoDup cm.*1 ∧
     (∀ k, k ∈ cm.*1 ↔ k ∈ required_names t) ∧
     (∀ f, f ∈ required_fields t →
           dict_get f cm = Some (map_column ui ("map_" +:+ f))) ∧
     ("mobile_no" ∉ required_fields t →
      dict_get "mobile_no" cm = Some (map_column ui "mobile_map"))) ∧
  (¬ NoDup (required_fields t) →
   ∃ key, build_column_mapping ui t = DuplicateKey key).
Proof.
  split; [|apply build_column_mapping_dup].
  intros Hnd. exists (form_mapping ui t).
  split; [by apply build_column_mapping_nodup|].
  split; [apply form_mapping_keys|]. split; [|split].
  - intros k. unfold required_names. rewrite elem_of_cons.
    destruct (decide (k ∈ (form_mapping ui t).*1)) as [Hin|Hout].
    + split; [intros _|done].
      destruct (decide (k ∈ required_fields t)) as [?|Hf]; [by right|left].
      destruct (decide (k = "mobile_no")) as [?|Hm]; [done|].
      exfalso. revert Hin. apply dict_get_None.
      rewrite form_mapping_get. by rewrite !decide_False.
    + split; [done|]. intros Hk. exfalso.
      apply dict_get_None in Hout. rewrite form_mapping_get in Hout.
      destruct (decide (k ∈ required_fields t)); [done|].
      destruct Hk as [->|?]; done.
  - intros f Hf. rewrite form_mapping_get. by rewrite decide_True.
  - intros Hno. rewrite form_mapping_get. by rewrite decide_False.
Qed.

Lemma column_mapping_built_witness :
  (∃ cm,
     build_column_mapping sample_ui sample_template = Built cm ∧
     dict_get "code" cm = Some (Literal "X1") ∧
     dict_get "mobile_no" cm = Some (Column "Phone")) ∧
  ∃ key, build_column_mapping sample_ui repeated_template = DuplicateKey key.
Proof.
  destruct (column_mapping_built sample_ui sample_template) as [Hbuilt _].
  destruct (column_mapping_built sample_ui repeated_template) as [_ Hstops].
  split.
  - destruct Hbuilt as (cm & Hcm & _ & _ & Hfield & Hmobile).
    { by apply (bool_decide_unpack _). }
    exists cm. split; [done|]. split.
    + apply (Hfield "code"). by apply (bool_decide_unpack _).
    + apply Hmobile. by apply (bool_decide_unpack _).
  - apply Hstops. by apply (bool_decide_unpack _).
Defined.

(** From the form to the wire: with the mapping built by the form, the
    posted [params] hold exactly the placeholders of the message other
    than [mobile_no], each with the text resolved through the choice made
    in its own widgets (the key [media] apart when the task has an
    image). *)
Theorem params_of_form_mapping (ui : string → widgets) (E : env)
    (net : request → net_event) (i : nat) (row : Series) (req : request) :
  build_column_mapping ui (template_obj E) = Built (column_mapping E) →
  (run_task E net i row).2 = [req] →
  ∃ ps,
    member "notification" (req_json req) ≫= member "params" = Some (JObj ps) ∧
    ∀ f,
      f ≠ "media" ∨ final_img (image_url E) (image_col_map E) row = "" →
      dict_get f ps
      = if decide (f ∈ required_fields (template_obj E) ∧ f ≠ "mobile_no")
        then Some (JStr (resolve row (map_column ui ("map_" +:+ f))))
        else None.
Proof.
  intros [_ Hcm]%build_column_mapping_built Hw.
  destruct (wire_params E net i row req Hw) as (ps & Hps & Hget).
  { rewrite Hcm. apply form_mapping_keys. }
  exists ps. split; [done|]. intros f Hf. rewrite (Hget f Hf), Hcm.
  rewrite form_mapping_get.
  destruct (decide (f = "mobile_no")) as [->|Hm].
  - rewrite decide_False; [done|]. by intros [_ ?].
  - destruct (decide (f ∈ required_fields (template_obj E))) as [Hin|Hout].
    + by rewrite decide_True.
    + rewrite decide_False; [done|]. by intros [? _].
Qed.

Lemma params_of_form_mapping_witness :
  ∃ ps,
    member "notification"
      (req_json (sent_request sample_env sample_row (Column "Phone")))
      ≫= member "params" = Some (JObj ps) ∧
    dict_get "name" ps = Some (JStr "Alice") ∧
    dict_get "mobile_no" ps = None.
Proof.
  destruct (params_of_form_mapping sample_ui sample_env (sample_net 0) 0
              sample_row (sent_request sample_env sample_row (Column "Phone")))
    as (ps & Hps & Hget).
  - by vm_compute.
  - reflexivity.
  - exists ps. split; [exact Hps|].
    rewrite !Hget by (by left). split; reflexivity.
Defined.



(** ** The preview of a message *)

Lemma prefix_app (p r : string) : String.prefix p (p +:+ r) = true.
Proof.
  induction p as [|a p IH]; [by destruct r|].
  rewrite str_app_cons. cbn [String.prefix].
  by destruct (ascii_dec a a).
Qed.

Lemma replace_from_skip (old new a r : string) :
  replace_from old new (String.length a) (a +:+ r) = replace_from old new 0 r.
Proof. induction a as [|c a IH]; [done|]. by rewrite str_app_cons. Qed.

Lemma replace_from_other (o new : string) (c : ascii) (r : string) :
  c ≠ "{"%char →
  replace_from (String "{" o) new 0 (String c r)
  = String c (replace_from (String "{" o) new 0 r).
Proof.
  intros Hc. cbn [replace_from String.prefix].
  by destruct (ascii_dec "{" c) as [<-|_].
Qed.

Lemma replace_from_text (o new s r : string) :
  plain_text s →
  replace_from (String "{" o) new 0 (s +:+ r)
  = s +:+ replace_from (String "{" o) new 0 r.
Proof.
  induction s as [|c s IH]; [done|]. intros (Ho & _ & Hs)%plain_text_cons.
  rewrite !str_app_cons, replace_from_other by done. by rewrite IH.
Qed.

Lemma prefix_name_eq (f n r : string) :
  plain_name f → plain_name n →
  String.prefix (f +:+ "}}") (n +:+ "}}" +:+ r) = true → f = n.
Proof.
  revert n. induction f as [|a f IH]; intros n Hf Hn.
  - destruct n as [|b n]; [done|].
    apply plain_name_cons in Hn as (_ & Hb & _).
    rewrite str_app_nil_l, str_app_cons. cbn [String.prefix].
    by destruct (ascii_dec "}" b) as [<-|_].
  - apply plain_name_cons in Hf as (_ & Ha & _ & Hf). rewrite str_app_cons.
    destruct n as [|b n].
    + rewrite str_app_nil_l.
      change ("}}" +:+ r) with (String "}" (String "}" r)).
      cbn [String.prefix]. by destruct (ascii_dec a "}") as [->|_].
    + apply plain_name_cons in Hn as (_ & _ & _ & Hn). rewrite str_app_cons.
      cbn [String.prefix]. destruct (ascii_dec a b) as [->|_]; [|done].
      intros Hp. f_equal. by apply IH.
Qed.

Lemma replace_from_match (c : ascii) (o new r : string) :
  replace_from (String c o) new 0 (String c o +:+ r)
  = new +:+ replace_from (String c o) new 0 r.
Proof.
  assert (String.prefix (String c o) (String c (o +:+ r)) = true) as Hp
    by apply (prefix_app (String c o) r).
  rewrite str_app_cons. cbn [replace_from]. rewrite Hp. f_equal.
  replace (String.length (String c o) - 1) with (String.length o)
    by (simpl; lia).
  apply replace_from_skip.
Qed.

Lemma replace_from_hole (f n v r : string) :
  plain_name f → plain_name n →
  replace_from (seg_text (Hole f)) v 0 (seg_text (Hole n) +:+ r)
  = seg_text (subst f v (Hole n)) +:+ replace_from (seg_text (Hole f)) v 0 r.
Proof.
  intros Hf Hn. cbn [subst]. destruct (decide (n = f)) as [->|Hne].
  - cbn [seg_text].
    change ("{{" +:+ f +:+ "}}") with (String "{" ("{" +:+ f +:+ "}}")).
    apply replace_from_match.
  - cbn [seg_text]. rewrite !str_app_assoc.
    change ("{{" +:+ n +:+ "}}" +:+ r)
      with (String "{" (String "{" (n +:+ "}}" +:+ r))).
    change ("{{" +:+ f +:+ "}}") with (String "{" (String "{" (f +:+ "}}"))).
    assert (String.prefix (String "{" (String "{" (f +:+ "}}")))
              (String "{" (String "{" (n +:+ "}}" +:+ r))) = false) as Hfirst.
    { cbn [String.prefix]. destruct (ascii_dec "{" "{") as [_|?]; [|done].
      destruct (String.prefix _ _) eqn:Hp; [|done].
      by apply prefix_name_eq in Hp as ->. }
    assert (String.prefix (String "{" (String "{" (f +:+ "}}")))
              (String "{" (n +:+ "}}" +:+ r)) = false) as Hsecond.
    { cbn [String.prefix]. destruct (ascii_dec "{" "{") as [_|?]; [|done].
      destruct n as [|b n].
      - rewrite str_app_nil_l.
        change ("}}" +:+ r) with (String "}" (String "}" r)).
        cbn [String.prefix]. by destruct (ascii_dec "{" "}").
      - apply plain_name_cons in Hn as (Hb & _). rewrite str_app_cons.
        cbn [String.prefix]. by destruct (ascii_dec "{" b) as [<-|_]. }
    cbn [replace_from]. rewrite Hfirst.
    cbn [replace_from]. rewrite Hsecond.
    rewrite replace_from_text by by apply plain_name_text.
    change ("}}" +:+ r) with (String "}" (String "}" r)).
    by rewrite !replace_from_other.
Qed.

Lemma replace_flatten (f v : string) (segs : list segment) :
  plain_name f → Forall plain_segment segs →
  replace (flatten segs) (seg_text (Hole f)) v = flatten (subst f v <$> segs).
Proof.
  intros Hf Hsegs. unfold replace. rewrite decide_False by done.
  induction Hsegs as [|[s|n] segs Hg Hsegs IH]; [done|..];
    cbn [flatten fmap list_fmap].
  - cbn [subst seg_text]. fold (subst f v <$> segs). rewrite <-IH.
    by apply replace_from_text.
  - fold (subst f v <$> segs). rewrite <-IH. by apply replace_from_hole.
Qed.

Lemma subst_plain (f v : string) (g : segment) :
  plain_text v → plain_segment g → plain_segment (subst f v g).
Proof.
  intros Hv Hg. destruct g as [s|n]; [done|]. cbn [subst].
  by destruct (decide (n = f)).
Qed.

Lemma fill_hole_nil (row : Series) (segs : list segment) :
  fill_hole [] row <$> segs = segs.
Proof.
  induction segs as [|g segs IH]; [done|]. cbn [fmap list_fmap].
  fold (fill_hole [] row <$> segs). rewrite IH. f_equal.
  destruct g as [s|n]; [done|]. cbn [fill_hole dict_get].
  by destruct (decide (n = "mobile_no")).
Qed.

Lemma fill_hole_mobile (m : mapinfo) (cm : dict mapinfo) (row : Series)
    (g : segment) :
  fill_hole (("mobile_no", m) :: cm) row g = fill_hole cm row g.
Proof.
  destruct g as [s|n]; [done|]. cbn [fill_hole dict_get].
  destruct (decide (n = "mobile_no")) as [->|Hn]; [done|].
  by rewrite decide_False by done.
Qed.

Lemma fill_hole_subst (f : string) (m : mapinfo) (cm : dict mapinfo)
    (row : Series) (g : segment) :
  f ≠ "mobile_no" →
  fill_hole cm row (subst f (resolve row m) g) = fill_hole ((f, m) :: cm) row g.
Proof.
  intros Hf. destruct g as [s|n]; [done|]. cbn [subst fill_hole dict_get].
  destruct (decide (n = f)) as [->|Hn].
  - by rewrite decide_False, decide_True by done.
  - cbn [fill_hole]. destruct (decide (n = "mobile_no")) as [->|Hmob]; [done|].
    by rewrite (decide_False (P := f = n)) by done.
Qed.

Lemma preview_message_flatten (cm : dict mapinfo) (row : Series)
    (segs : list segment) :
  Forall (fills_cleanly row) cm → Forall plain_segment segs →
  preview_message cm (flatten segs) row = flatten (fill_hole cm row <$> segs).
Proof.
  intros Hcm. revert segs.
  induction Hcm as [|[f m] cm Hfm Hcm IH]; intros segs Hsegs.
  - by rewrite fill_hole_nil.
  - unfold preview_message. cbn [foldl]. fold (preview_message cm).
    destruct (decide (f = "mobile_no")) as [->|Hf].
    + fold (preview_message cm (flatten segs) row). rewrite IH by done.
      f_equal. apply list_fmap_ext. intros _ g _. by rewrite fill_hole_mobile.
    + destruct Hfm as [?|[Hname Hval]]; [done|]. cbn [fst snd] in Hname, Hval.
      change ("{{" +:+ f +:+ "}}") with (seg_text (Hole f)).
      rewrite replace_flatten by done.
      fold (preview_message cm (flatten (subst f (resolve row m) <$> segs)) row).
      rewrite IH.
      * rewrite <-list_fmap_compose. f_equal. apply list_fmap_ext.
        intros _ g _. by apply fill_hole_subst.
      * apply Forall_fmap. eapply list.Forall_impl; [done|].
        intros g Hg. by apply subst_plain.
Qed.

(** When the message is made of brace-free text and of placeholders with
    plain names, and the values of the mapped fields on the first row
    have no braces, the preview shows the recipient read from the column
    named by the [mobile_no] mapping and the message with every mapped
    placeholder, [{{mobile_no}}] apart, replaced by the value that the
    send task puts in [params] for that row.  The row is the first row as
    the table hands it out: in a table of numbers only, with a float
    among them, its integers read as floats. *)
Theorem preview_shows_filled_message (cm : dict mapinfo) (t : template)
    (df : DataFrame) (segs : list segment) (vals : list cell)
    (rest : list (list cell)) (mobile : mapinfo) :
  data df = vals :: rest →
  message t = flatten segs →
  Forall plain_segment segs →
  Forall (fills_cleanly (labelled df vals)) cm →
  dict_get "mobile_no" cm = Some mobile →
  preview cm t df
  = Return (str (get (labelled df vals) (mvalue mobile) (CellStr "")),
            flatten (fill_hole cm (labelled df vals) <$> segs)).
Proof.
  intros Hdata Hmsg Hsegs Hcm Hmobile. unfold preview, iterrows.
  rewrite Hdata. cbn [imap]. rewrite Hmobile, Hmsg.
  by rewrite preview_message_flatten.
Qed.

Lemma preview_shows_filled_message_witness :
  preview (column_mapping sample_env) sample_template sample_df
    = Return ("919812345601", "Hi Alice, your code is X1") ∧
  preview [("mobile_no", Column "Phone"); ("due", Column "Due")]
    {| template_name := "due"; template_id := "due_01";
       message := "You owe {{due}}"; mappings := [] |}
    numbers_df
    = Return ("919812345601.0", "You owe 12.5").
Proof.
  split.
  - apply (preview_shows_filled_message (column_mapping sample_env)
             sample_template sample_df
             [Text "Hi "; Hole "name"; Text ", your code is "; Hole "code"]
             [CellInt 919812345601; CellStr "Alice"; CellStr "https://b/c.png"]
             [[CellInt 919812345602; CellStr "Bob"; CellFloat "nan"];
              [CellInt 919812345603; CellStr " Carol "; CellStr "ftp://d"]]
             (Column "Phone")).
    + reflexivity.
    + reflexivity.
    + repeat constructor.
    + repeat (constructor; [first [by left | by right]|]). constructor.
    + reflexivity.
  - apply (preview_shows_filled_message
             [("mobile_no", Column "Phone"); ("due", Column "Due")]
             {| template_name := "due"; template_id := "due_01";
                message := "You owe {{due}}"; mappings := [] |}
             numbers_df [Text "You owe "; Hole "due"]
             [CellInt 919812345601; CellFloat "12.5"]
             [[CellInt 919812345602; CellFloat "nan"]]
             (Column "Phone")).
    + reflexivity.
    + reflexivity.
    + repeat constructor.
    + repeat (constructor; [first [by left | by right]|]). constructor.
    + reflexivity.
Defined.

(** With a mapping that the form has built, the preview fails exactly
    when the sheet has no row, and then with the index error of
    [df.iloc[0]]; it never fails for a missing [mobile_no]. *)
Theorem preview_fails_only_without_rows (ui : string → widgets) (t : template)
    (cm : dict mapinfo) (df : DataFrame) :
  build_column_mapping ui t = Built cm →
  match preview cm t df with
  | Return _ => (0 < len df)%nat
  | Raise e =>
      len df = 0%nat ∧
      e = IndexError "single positional indexer is out-of-bounds"
  | Hang => False
  end.
Proof.
  intros [_ ->]%build_column_mapping_built.
  unfold preview, iterrows, len. destruct (data df) as [|vals rest]; [done|].
  cbn [imap]. rewrite form_mapping_get.
  destruct (decide _); [simpl; lia|]. rewrite decide_True by done. simpl; lia.
Qed.

Lemma preview_fails_only_without_rows_witness :
  preview (column_mapping sample_env) sample_template
    {| columns := ["Phone"; "Name"; "Img"]; data := [] |}
  = Raise (IndexError "single positional indexer is out-of-bounds").
Proof.
  pose proof (preview_fails_only_without_rows sample_ui sample_template
                (column_mapping sample_env)
                {| columns := ["Phone"; "Name"; "Img"]; data := [] |}) as H.
  destruct (preview _ _ _) as [r|e|]; [| |by destruct H].
  - specialize (H ltac:(by vm_compute)). unfold len in H. simpl in H. lia.
  - destruct H as [_ ->]; [by vm_compute|done].
Defined.

(** ** The template store *)

Lemma get_templates_cached_coherent (s : store) :
  coherent s →
  (get_templates_cached s).1 = load_templates s ∧
  load_templates (get_templates_cached s).2 = load_templates s ∧
  coherent (get_templates_cached s).2.
Proof.
  destruct s as [f [c|]]; unfold coherent, get_templates_cached; cbn.
  - intros [?|[= ->]]; [done|]. split_and!; [done..|by right].
  - intros _. split_and!; [done..|by right].
Qed.

Lemma add_template_load (name id msg : string) (s : store) :
  coherent s →
  load_templates (add_template name id msg s)
  = if truthy name && truthy msg && truthy id
    then load_templates s ++ [{| t_name := name; t_id := id; t_message := msg;
                                 t_mappings := Some ∅ |}]
    else load_templates s.
Proof.
  intros (H1 & H2 & _)%get_templates_cached_coherent. unfold add_template.
  destruct (get_templates_cached s) as [templates s']. cbn [fst snd] in *.
  subst templates. by destruct (truthy name && truthy msg && truthy id).
Qed.

Lemma update_template_load (idx : nat) (name id msg : string) (s : store) :
  coherent s →
  load_templates (update_template idx name id msg s)
  = match load_templates s !! idx with
    | Some t => <[idx := {| t_name := name; t_id := id; t_message := msg;
                            t_mappings := Some (get_template_mapping t) |}]>
                  (load_templates s)
    | None => load_templates s
    end.
Proof.
  intros (H1 & H2 & _)%get_templates_cached_coherent. unfold update_template.
  destruct (get_templates_cached s) as [templates s']. cbn [fst snd] in *.
  subst templates. by destruct (load_templates s !! idx).
Qed.

Lemma delete_template_load (idx : nat) (s : store) :
  coherent s →
  load_templates (delete_template idx s) = delete idx (load_templates s).
Proof.
  intros (H1 & H2 & _)%get_templates_cached_coherent. unfold delete_template.
  destruct (get_templates_cached s) as [templates s']. cbn [fst snd] in *.
  subst templates. destruct (load_templates s !! idx) eqn:Hidx; [done|].
  rewrite H2. apply lookup_ge_None in Hidx.
  by rewrite delete_take_drop, take_ge, drop_ge, app_nil_r by lia.
Qed.

Lemma update_template_mapping_load (name : string) (m : gmap string saved)
    (s : store) :
  load_templates (update_template_mapping name m s)
  = match list_find (λ t, t_name t = name) (load_templates s) with
    | Some (i, t) => <[i := with_mappings t m]> (load_templates s)
    | None => load_templates s
    end.
Proof.
  unfold update_template_mapping.
  destruct (list_find _ _) as [[i t]|] eqn:Hfind; [|done].
  destruct (decide _) as [Hne|Heq]; [done|].
  apply list_find_Some in Hfind as (Hi & _ & _).
  symmetry. apply list_insert_id. rewrite Hi. f_equal.
  apply dec_stable in Heq. destruct t as [n i' msg mp]. cbn in Heq. by subst mp.
Qed.

Lemma perform_coherent (s : store) (a : action) :
  coherent s → coherent (perform s a).
Proof.
  intros Hs. pose proof (get_templates_cached_coherent s Hs) as (_ & _ & Hc).
  destruct a as [|name id msg|idx name id msg|idx|name m]; cbn [perform].
  - done.
  - unfold add_template. destruct (get_templates_cached s) as [templates s'].
    destruct (_ && _); [by left|done].
  - unfold update_template. destruct (get_templates_cached s) as [templates s'].
    destruct (_ !! _); [by left|done].
  - unfold delete_template. destruct (get_templates_cached s) as [templates s'].
    destruct (_ !! _); [by left|done].
  - unfold update_template_mapping.
    destruct (list_find _ _) as [[i t]|]; [|done].
    destruct (decide _); [by left|done].
Qed.

Lemma session_coherent (f : option (list stored)) (acts : list action) :
  coherent (session f acts).
Proof.
  unfold session. assert (coherent {| file := f; cache := None |}) as Hs
    by by left.
  revert Hs. generalize {| file := f; cache := None |}.
  induction acts as [|a acts IH]; intros s Hs; [done|].
  cbn [foldl]. by apply IH, perform_coherent.
Qed.

(** Whatever the runs of the script have been since the process started,
    the cached list that the tabs are drawn from is the list in the file:
    every write of the file drops the cache. *)
Theorem cached_templates_never_stale (f : option (list stored))
    (acts : list action) :
  (get_templates_cached (session f acts)).1 = load_templates (session f acts).
Proof. apply get_templates_cached_coherent, session_coherent. Qed.

Lemma select_after_save (name : string) (m : gmap string saved) (s : store)
    (t : stored) :
  select_template name (load_templates s) = Some t →
  select_template name (load_templates (update_template_mapping name m s))
  = Some (with_mappings t m).
Proof.
  unfold select_template. intros ([i t'] & Hfind & ->)%fmap_Some.
  rewrite update_template_mapping_load, Hfind. cbn [snd].
  apply list_find_Some in Hfind as (Hi & Hname & Hleast).
  rewrite (proj2 (list_find_Some _ _ i (with_mappings t' m))); [done|].
  split_and!.
  - apply list_lookup_insert_eq. by eapply lookup_lt_Some.
  - done.
  - intros j y Hj Hlt. rewrite list_lookup_insert_ne in Hj by lia.
    by eapply Hleast.
Qed.

(** The mapping saved by a send is the one that the template of that
    name is selected with afterwards; its name, id and message are as
    they were. *)
Theorem saved_mapping_read_back (name : string) (m : gmap string saved)
    (s : store) (t : stored) :
  select_template name (load_templates s) = Some t →
  ∃ t',
    select_template name (load_templates (update_template_mapping name m s))
      = Some t' ∧
    get_template_mapping t' = m ∧
    t_name t' = t_name t ∧ t_id t' = t_id t ∧ t_message t' = t_message t.
Proof.
  intros Ht. exists (with_mappings t m). split; [|done].
  by apply select_after_save.
Qed.

Lemma saved_mapping_read_back_witness :
  ∃ t',
    select_template "welcome"
      (load_templates
         (update_template_mapping "welcome"
            (mapping_to_save (column_mapping sample_env) "Img") sample_store))
      = Some t' ∧
    get_template_mapping t'
      = mapping_to_save (column_mapping sample_env) "Img" ∧
    t_name t' = "welcome" ∧ t_id t' = "welcome_01" ∧
    t_message t' = "Hi {{name}}, your code is {{code}}".
Proof.
  apply (saved_mapping_read_back "welcome" _ sample_store sample_stored).
  reflexivity.
Defined.

(** Saving a mapping keeps the number of templates, and every template
    of another name stays where it was. *)
Theorem saving_leaves_other_templates (name : string)
    (m : gmap string saved) (s : store) :
  length (load_templates (update_template_mapping name m s))
    = length (load_templates s) ∧
  ∀ j t, t_name t ≠ name →
    load_templates (update_template_mapping name m s) !! j = Some t ↔
    load_templates s !! j = Some t.
Proof.
  rewrite update_template_mapping_load.
  destruct (list_find _ _) as [[i t0]|] eqn:Hfind; [|done].
  apply list_find_Some in Hfind as (Hi & Hname & _).
  split; [by rewrite length_insert|]. intros j t Ht.
  destruct (decide (i = j)) as [<-|Hij].
  - rewrite list_lookup_insert_eq by by eapply lookup_lt_Some. rewrite Hi.
    split; intros [= <-]; by destruct Ht.
  - by rewrite list_lookup_insert_ne.
Qed.

Lemma saving_leaves_other_templates_witness :
  load_templates
    (update_template_mapping "welcome"
       (mapping_to_save (column_mapping sample_env) "Img") sample_store) !! 1%nat
  = Some {| t_name := "bye"; t_id := "bye_01"; t_message := "Bye {{name}}";
            t_mappings := None |}.
Proof.
  apply (proj2 (saving_leaves_other_templates "welcome"
                  (mapping_to_save (column_mapping sample_env) "Img")
                  sample_store)).
  - done.
  - reflexivity.
Defined.

(** A second send with the same mapping leaves the store as the first
    one left it: the file is not written again. *)
Theorem saving_twice_writes_once (name : string) (m : gmap string saved)
    (s : store) :
  update_template_mapping name m (update_template_mapping name m s)
  = update_template_mapping name m s.
Proof.
  destruct (select_template name (load_templates s)) as [t|] eqn:Hsel.
  - pose proof (select_after_save name m s t Hsel) as Hsel'.
    revert Hsel'. generalize (update_template_mapping name m s). intros s'.
    unfold select_template, update_template_mapping.
    intros ([i t'] & -> & [= <-])%fmap_Some.
    by rewrite decide_False by (intros Hne; by apply Hne).
  - unfold select_template in Hsel. apply fmap_None in Hsel.
    unfold update_template_mapping. by rewrite !Hsel.
Qed.

(** The form that adds a template does not look at the names in use: a
    template added under a name that is taken is stored after the
    others, and selecting that name still gives the older one. *)
Theorem duplicate_name_is_shadowed (name id msg : string) (s : store)
    (t : stored) :
  coherent s →
  select_template name (load_templates s) = Some t →
  select_template name (load_templates (add_template name id msg s)) = Some t.
Proof.
  intros Hs Hsel. rewrite add_template_load by done.
  destruct (_ && _); [|done]. unfold select_template in *.
  apply fmap_Some in Hsel as ([i t'] & Hfind & ->).
  by rewrite (list_find_app_l _ _ _ _ _ Hfind).
Qed.

Lemma duplicate_name_is_shadowed_witness :
  select_template "welcome"
    (load_templates (add_template "welcome" "welcome_02" "Hello" sample_store))
  = Some sample_stored.
Proof.
  apply duplicate_name_is_shadowed; [by left|reflexivity].
Defined.

(** A template added under a new name, with a name, an id and a message
    that are not empty, is the one selected by that name, with no
    mappings yet; if one of the three is empty nothing is stored. *)
Theorem added_template_selected (name id msg : string) (s : store) :
  coherent s →
  select_template name (load_templates s) = None →
  select_template name (load_templates (add_template name id msg s))
  = if decide (name = "" ∨ id = "" ∨ msg = "") then None
    else Some {| t_name := name; t_id := id; t_message := msg;
                 t_mappings := Some ∅ |}.
Proof.
  intros Hs Hsel. rewrite add_template_load by done. unfold truthy.
  destruct (decide (name = "" ∨ id = "" ∨ msg = "")) as [Hempty|Hfull].
  - replace (_ && _ && _) with false; [done|]. symmetry.
    rewrite !andb_false_iff, !bool_decide_eq_false. tauto.
  - replace (_ && _ && _) with true.
    + unfold select_template in *. apply fmap_None in Hsel.
      rewrite list_find_app_r by done. cbn. by rewrite decide_True.
    + symmetry. rewrite !andb_true_iff, !bool_decide_eq_true.
      split_and!; intros ->; apply Hfull; tauto.
Qed.

Lemma added_template_selected_witness :
  select_template "otp"
    (load_templates (add_template "otp" "otp_01" "Code {{code}}" sample_store))
  = Some {| t_name := "otp"; t_id := "otp_01"; t_message := "Code {{code}}";
            t_mappings := Some ∅ |}.
Proof.
  apply (added_template_selected "otp" "otp_01" "Code {{code}}" sample_store);
    [by left|reflexivity].
Defined.

(** The update button changes the name, the id and the message of a
    template and nothing else: the mappings of every template, read as
    the send tab reads them, are what they were. *)
Theorem update_template_keeps_mappings (idx : nat)
    (new_name new_id new_msg : string) (s : store) :
  coherent s →
  get_template_mapping
    <$> load_templates (update_template idx new_name new_id new_msg s)
  = get_template_mapping <$> load_templates s.
Proof.
  intros Hs. rewrite update_template_load by done.
  destruct (load_templates s !! idx) as [t|] eqn:Hidx; [|done].
  rewrite list_fmap_insert. apply list_insert_id.
  by rewrite list_lookup_fmap, Hidx.
Qed.

Lemma update_template_keeps_mappings_witness :
  get_template_mapping
    <$> load_templates
          (update_template 1 "ciao" "bye_02" "Ciao {{name}}" sample_store)
  = get_template_mapping <$> load_templates sample_store.
Proof.
  apply update_template_keeps_mappings. by left.
Defined.

(** ** The defaults of the mapping form *)

Lemma copy_lookup (g : mapinfo → saved) (cm : dict mapinfo) (f : string) :
  (list_to_map (prod_map id g <$> cm) : gmap string saved) !! f
  = g <$> dict_get f cm.
Proof.
  induction cm as [|[k v] cm IH]; [apply lookup_empty|].
  cbn [fmap list_fmap prod_map fst snd id dict_get].
  rewrite list_to_map_cons. destruct (decide (k = f)) as [->|Hne].
  - by rewrite lookup_insert_eq.
  - by rewrite lookup_insert_ne.
Qed.

Lemma mapping_to_save_lookup (cm : dict mapinfo) (img f : string) :
  f ≠ "image_column" ∨ img = "" →
  mapping_to_save cm img !! f = saved_of <$> dict_get f cm.
Proof.
  intros Hf. unfold mapping_to_save, truthy.
  destruct (bool_decide (img ≠ "")) eqn:Himg.
  - apply bool_decide_eq_true in Himg. destruct Hf as [Hf|?]; [|done].
    rewrite lookup_insert_ne by done. apply copy_lookup.
  - apply copy_lookup.
Qed.

Lemma saved_type_of (m : mapinfo) : saved_type (saved_of m) = mtype m.
Proof. unfold saved_type, saved_of. by rewrite lookup_insert_eq. Qed.

Lemma saved_value_of (m : mapinfo) : saved_value (saved_of m) = mvalue m.
Proof.
  unfold saved_value, saved_of.
  by rewrite lookup_insert_ne, lookup_insert_eq.
Qed.

Lemma drawn_saved_of (columns : list string) (m : mapinfo)
    (key_prefix : string) :
  mtype m = "custom" ∨ (mtype m = "column" ∧ mvalue m ∈ columns) →
  map_column (λ _, drawn columns (saved_of m)) key_prefix = m.
Proof.
  intros Hm. unfold map_column, drawn. cbn [radio selectbox text_input].
  rewrite saved_type_of, saved_value_of. destruct m as [ty v]. cbn in *.
  destruct Hm as [->|[-> Hv]].
  - rewrite (decide_False (P := "custom" = "column")) by done.
    by rewrite decide_False.
  - rewrite (decide_True (P := "column" = "column")) by done.
    rewrite decide_True by done. f_equal.
    destruct (list_find_elem_of (λ c, c = v) columns v Hv eq_refl)
      as [[i c] Hfind].
    rewrite Hfind. apply list_find_Some in Hfind as (Hi & -> & _).
    by rewrite Hi.
Qed.

(** After a send, the mapping form of the same template offers for each
    field the mapping that was sent: the custom text as it was typed, or
    the column as long as the sheet still has it. A field called
    [image_column] is the exception when an image column is chosen. *)
Theorem form_defaults_after_send (name : string) (cm : dict mapinfo)
    (img : string) (s : store) (t : stored) (columns : list string)
    (f key_prefix : string) (m : mapinfo) :
  select_template name (load_templates s) = Some t →
  dict_get f cm = Some m →
  f ≠ "image_column" ∨ img = "" →
  mtype m = "custom" ∨ (mtype m = "column" ∧ mvalue m ∈ columns) →
  ∃ t',
    select_template name
      (load_templates
         (update_template_mapping name (mapping_to_save cm img) s))
      = Some t' ∧
    map_column
      (λ _, drawn columns (saved_entry (get_template_mapping t') f))
      key_prefix
    = m.
Proof.
  intros Ht Hf Himg Hm. exists (with_mappings t (mapping_to_save cm img)).
  split; [by apply select_after_save|].
  assert (saved_entry
            (get_template_mapping (with_mappings t (mapping_to_save cm img))) f
          = saved_of m) as ->.
  { unfold saved_entry, get_template_mapping, with_mappings. cbn.
    by rewrite mapping_to_save_lookup, Hf. }
  by apply drawn_saved_of.
Qed.

Lemma form_defaults_after_send_witness :
  ∃ t',
    select_template "welcome"
      (load_templates
         (update_template_mapping "welcome"
            (mapping_to_save (column_mapping sample_env) "Img") sample_store))
      = Some t' ∧
    map_column
      (λ _, drawn (columns sample_df)
              (saved_entry (get_template_mapping t') "name"))
      "map_name"
    = Column "Name".
Proof.
  apply (form_defaults_after_send "welcome" (column_mapping sample_env) "Img"
           sample_store sample_stored (columns sample_df) "name" "map_name"
           (Column "Name")).
  - reflexivity.
  - reflexivity.
  - by left.
  - right. split; [reflexivity|]. cbn. by repeat constructor.
Defined.

(** A saved entry of type column whose column the sheet does not have,
    as for a field that was never saved, is drawn as the first column
    of the sheet, and that column is the mapping unless the user
    changes it. *)
Theorem unmatched_default_is_first_column (c0 : string) (cols : list string)
    (sv : saved) (key_prefix : string) :
  saved_type sv = "column" → saved_value sv ∉ c0 :: cols →
  map_column (λ _, drawn (c0 :: cols) sv) key_prefix = Column c0.
Proof.
  intros Hty Hval. unfold map_column, drawn. cbn [radio selectbox text_input].
  rewrite Hty, (decide_True (P := "column" = "column")) by done.
  rewrite decide_True by done. unfold Column. f_equal.
  destruct (list_find _ _) as [[i c]|] eqn:Hfind; [|done].
  apply list_find_Some in Hfind as (Hi & -> & _).
  destruct Hval. by eapply list_elem_of_lookup_2.
Qed.

Lemma unmatched_default_is_first_column_witness :
  map_column (λ _, drawn ["Phone"; "Name"; "Img"] (saved_entry ∅ "name"))
    "map_name"
  = Column "Phone".
Proof.
  apply (unmatched_default_is_first_column "Phone" ["Name"; "Img"]).
  - reflexivity.
  - change (saved_value (saved_entry ∅ "name")) with "".
    intros H. repeat (apply elem_of_cons in H as [?|H]; [done|]).
    by apply elem_of_nil in H.
Defined.
